(** * BrainDock license manager: a shallow embedding of
    [licensing/license_manager.py] and the properties of its
    entitlement store, key validator and activation engine.

    Layout of the development:
    - [Sha256]: hashlib's SHA-256 over bytes, with [hexdigest];
    - [Json]: the values [json.load] yields and [json.dumps(sort_keys=True)];
    - [PyStr]: [str.strip], [str.encode], and [str.upper] on ASCII
      text;
    - [LicenseManager]: the class, as functions on an explicit state
      (the object's attributes and the two files) that also return
      what was raised and what was logged; [str.upper] is a parameter
      of the methods that call it;
    - the module-level instance, as a reference into a store of
      manager objects;
    - the theorems, for every function [upper], and then the theorems
      at concrete inputs. *)

From Stdlib Require Import ZArith List String Ascii Lia DecimalString DecimalZ.
From Stdlib Require Import Sorted Permutation.
From stdpp Require Import gmap strings.
Import ListNotations.

Set Warnings "-register-all".
Local Open Scope Z_scope.

(** ** SHA-256 (FIPS 180-4), as [hashlib.sha256(b).hexdigest()] *)
Module Sha256.

(** 32-bit words are integers in [0, 2^32); addition wraps around. *)
Definition wmask : Z := 0xffffffff.
Definition add32 (x y : Z) : Z := Z.land (x + y) wmask.
Definition rotr (n x : Z) : Z :=
  Z.lor (Z.shiftr x n) (Z.land (Z.shiftl x (32 - n)) wmask).
Definition shr (n x : Z) : Z := Z.shiftr x n.
Definition not32 (x : Z) : Z := Z.lxor x wmask.

Definition Ch (x y z : Z) : Z := Z.lxor (Z.land x y) (Z.land (not32 x) z).
Definition Maj (x y z : Z) : Z :=
  Z.lxor (Z.lxor (Z.land x y) (Z.land x z)) (Z.land y z).
Definition bsig0 (x : Z) : Z := Z.lxor (Z.lxor (rotr 2 x) (rotr 13 x)) (rotr 22 x).
Definition bsig1 (x : Z) : Z := Z.lxor (Z.lxor (rotr 6 x) (rotr 11 x)) (rotr 25 x).
Definition ssig0 (x : Z) : Z := Z.lxor (Z.lxor (rotr 7 x) (rotr 18 x)) (shr 3 x).
Definition ssig1 (x : Z) : Z := Z.lxor (Z.lxor (rotr 17 x) (rotr 19 x)) (shr 10 x).

(** The constants of the standard are the first 32 bits of the
    fractional parts of roots of the first primes: cube roots of the
    first sixty-four for the rounds, square roots of the first eight for
    the initial hash value. *)
Definition primes : list Z :=
  [ 2; 3; 5; 7; 11; 13; 17; 19; 23; 29; 31; 37; 41; 43; 47; 53;
    59; 61; 67; 71; 73; 79; 83; 89; 97; 101; 103; 107; 109; 113; 127; 131;
    137; 139; 149; 151; 157; 163; 167; 173; 179; 181; 191; 193; 197; 199;
    211; 223; 227; 229; 233; 239; 241; 251; 257; 263; 269; 271; 277; 281;
    283; 293; 307; 311 ].

(** The largest [r] below [2^bits] with [r^k <= n], found bit by bit. *)
Fixpoint int_root (k : Z) (n : Z) (bits : nat) (acc : Z) : Z :=
  match bits with
  | O => acc
  | S b =>
      let cand := acc + 2 ^ Z.of_nat b in
      if cand ^ k <=? n then int_root k n b cand else int_root k n b acc
  end.

Definition frac_root (k : Z) (p : Z) : Z :=
  Z.land (int_root k (p * 2 ^ (32 * k)) 40 0) wmask.

Definition round_constants : list Z :=
  Eval vm_compute in map (frac_root 3) primes.

(** The eight working variables / the chaining value. *)
Record regs : Type := Regs {
  ra : Z; rb : Z; rc : Z; rd : Z; re : Z; rf : Z; rg : Z; rh : Z }.

Definition regs_of_list (l : list Z) : regs :=
  Regs (nth 0 l 0) (nth 1 l 0) (nth 2 l 0) (nth 3 l 0)
       (nth 4 l 0) (nth 5 l 0) (nth 6 l 0) (nth 7 l 0).

Definition initial_hash : regs :=
  Eval vm_compute in regs_of_list (map (frac_root 2) (firstn 8 primes)).

(** Padding: a 1 bit, zeros up to 56 mod 64 bytes, then the bit length
    as a 64-bit big-endian integer. *)
Definition be_bytes (n : nat) (x : Z) : list Z :=
  map (fun i => Z.land (Z.shiftr x (8 * Z.of_nat i)) 0xff) (rev (seq 0 n)).

Definition pad (msg : list Z) : list Z :=
  let len := Z.of_nat (length msg) in
  let zeros := Z.to_nat ((55 - len) mod 64) in
  msg ++ [0x80] ++ repeat 0 zeros ++ be_bytes 8 (8 * len).

Fixpoint be_words (n : nat) (bs : list Z) : list Z :=
  match n, bs with
  | S n', b0 :: b1 :: b2 :: b3 :: rest =>
      (Z.shiftl b0 24 + Z.shiftl b1 16 + Z.shiftl b2 8 + b3) :: be_words n' rest
  | _, _ => []
  end.

(** The message schedule is kept newest-first: [nth_w k ws] is W(t-1-k). *)
Definition nth_w (k : nat) (ws : list Z) : Z := nth k ws 0.

Fixpoint extend_schedule (n : nat) (ws : list Z) : list Z :=
  match n with
  | O => ws
  | S n' =>
      let w := add32 (add32 (ssig1 (nth_w 1 ws)) (nth_w 6 ws))
                     (add32 (ssig0 (nth_w 14 ws)) (nth_w 15 ws)) in
      extend_schedule n' (w :: ws)
  end.

Definition schedule (block : list Z) : list Z :=
  rev (extend_schedule 48 (rev (be_words 16 block))).

Definition round (r : regs) (kw : Z * Z) : regs :=
  let t1 := add32 (add32 (add32 (rh r) (bsig1 (re r)))
                         (add32 (Ch (re r) (rf r) (rg r)) (fst kw))) (snd kw) in
  let t2 := add32 (bsig0 (ra r)) (Maj (ra r) (rb r) (rc r)) in
  Regs (add32 t1 t2) (ra r) (rb r) (rc r) (add32 (rd r) t1) (re r) (rf r) (rg r).

Definition compress (h : regs) (block : list Z) : regs :=
  let r := fold_left round (combine round_constants (schedule block)) h in
  Regs (add32 (ra h) (ra r)) (add32 (rb h) (rb r)) (add32 (rc h) (rc r))
       (add32 (rd h) (rd r)) (add32 (re h) (re r)) (add32 (rf h) (rf r))
       (add32 (rg h) (rg r)) (add32 (rh h) (rh r)).

Fixpoint blocks (n : nat) (bs : list Z) : list (list Z) :=
  match n with
  | O => []
  | S n' => firstn 64 bs :: blocks n' (skipn 64 bs)
  end.

Definition digest (msg : list Z) : regs :=
  let p := pad msg in
  fold_left compress (blocks (length p / 64)%nat p) initial_hash.

(** Lower-case hexadecimal, as [hexdigest] prints it. *)
Definition hex_digit (d : Z) : ascii :=
  if d <? 10 then ascii_of_N (Z.to_N (48 + d)) else ascii_of_N (Z.to_N (87 + d)).

Definition hex_of (digits : nat) (x : Z) : string :=
  string_of_list_ascii
    (map (fun i => hex_digit (Z.land (Z.shiftr x (4 * Z.of_nat i)) 0xf))
         (rev (seq 0 digits))).

Definition hexdigest (msg : list Z) : string :=
  let r := digest msg in
  String.concat EmptyString
    (map (hex_of 8) [ra r; rb r; rc r; rd r; re r; rf r; rg r; rh r]).

(** [str.encode()]: the texts hashed here are ASCII, one byte per
    character. *)
Definition encode (s : string) : list Z :=
  map (fun c => Z.of_N (N_of_ascii c)) (list_ascii_of_string s).

End Sha256.

(** ** Python strings: [str.strip()], [str.encode()], [str.upper()]

    A [str] is a [string] whose characters are code points below 256;
    text with other characters is outside the model.

    [str.upper()] is Unicode's full upper-casing: it maps the letters
    of the Latin-1 range as well as a-z, one character to several (the
    sharp s to SS) and two characters, the micro sign and y with
    diaeresis, to code points above 255 (a key with one of these two
    is outside the model for that reason).  It is not computed here.
    Everything that calls it takes the function as a parameter
    [upper], and what is proved is proved for every such function.
    [ascii_upper] below is [str.upper] on ASCII text; it serves to run
    the model on the ASCII keys of the examples. *)
Module PyStr.

Definition code (c : ascii) : N := N_of_ascii c.

(** [str.isspace] on one character. *)
Definition is_space (c : ascii) : bool :=
  let n := code c in
  ((9 <=? n) && (n <=? 13) || (28 <=? n) && (n <=? 32)
   || (n =? 133) || (n =? 160))%N.

Fixpoint lstrip (s : string) : string :=
  match s with
  | String c s' => if is_space c then lstrip s' else s
  | EmptyString => EmptyString
  end.

Definition rstrip (s : string) : string := String.rev (lstrip (String.rev s)).

Definition strip (s : string) : string := rstrip (lstrip s).

(** [s[:n]] *)
Definition prefix (n : nat) (s : string) : string := String.substring 0 n s.

(** [str.encode()]: UTF-8, one byte below 128 and two bytes from 128 to
    255. *)
Definition utf8 (s : string) : list Z :=
  flat_map
    (fun c =>
       let n := Z.of_N (N_of_ascii c) in
       if n <? 128 then [n]
       else [Z.lor 0xC0 (Z.shiftr n 6); Z.lor 0x80 (Z.land n 0x3F)])
    (list_ascii_of_string s).

(** [str.upper()] on a text of ASCII characters: a-z go to A-Z and the
    other characters below 128 stay.  (Characters from 128 on are left
    alone, which is not what [str.upper] does to the letters among
    them.) *)
Definition ascii_upper_char (c : ascii) : ascii :=
  let n := code c in
  if ((97 <=? n) && (n <=? 122))%N then ascii_of_N (n - 32) else c.

Fixpoint ascii_upper (s : string) : string :=
  match s with
  | String c s' => String (ascii_upper_char c) (ascii_upper s')
  | EmptyString => EmptyString
  end.

End PyStr.

(** ** JSON documents and [json.dumps(v, sort_keys=True)] *)
Module Json.

(** What [json.load] returns: [None], [bool], [int], [str], [list] and
    [dict] with [str] keys ([float] is left out).  A [dict] keeps its
    items in insertion order, which is also the order [json.dump]
    writes them in. *)
Inductive json : Type :=
| JNull
| JBool (b : bool)
| JInt (z : Z)
| JStr (s : string)
| JList (l : list json)
| JDict (d : list (string * json)).

Definition dict : Type := list (string * json).

(** [k in d] and [d.get(k)] ([None] is [JNull]). *)
Fixpoint lookup (k : string) (d : dict) : option json :=
  match d with
  | [] => None
  | (k', v) :: d' => if String.eqb k k' then Some v else lookup k d'
  end.

Definition contains (k : string) (d : dict) : bool :=
  match lookup k d with Some _ => true | None => false end.

Definition get (k : string) (d : dict) : json :=
  match lookup k d with Some v => v | None => JNull end.

(** [d.get(k, dflt)] *)
Definition get_default (k : string) (dflt : json) (d : dict) : json :=
  match lookup k d with Some v => v | None => dflt end.

(** [d[k] = v]: an existing key keeps its place, a new one goes last. *)
Fixpoint set (k : string) (v : json) (d : dict) : dict :=
  match d with
  | [] => [(k, v)]
  | (k', v') :: d' =>
      if String.eqb k k' then (k', v) :: d' else (k', v') :: set k v d'
  end.

(** [{k: v for k, v in d.items() if k != key}] *)
Definition without (key : string) (d : dict) : dict :=
  List.filter (fun kv => negb (String.eqb (fst kv) key)) d.

(** Python truth value of a JSON value ([not x] is its negation). *)
Definition truthy (v : json) : bool :=
  match v with
  | JNull => false
  | JBool b => b
  | JInt z => negb (z =? 0)
  | JStr s => negb (String.eqb s EmptyString)
  | JList l => match l with [] => false | _ => true end
  | JDict d => match d with [] => false | _ => true end
  end.

(** [v == s] for a [str] s. *)
Definition eq_str (v : json) (s : string) : bool :=
  match v with
  | JStr s' => String.eqb s' s
  | _ => false
  end.

Definition quote : string := String (ascii_of_N 34) EmptyString.

(** [json.encoder.py_encode_basestring_ascii]: everything outside
    space..~ is escaped, as are the quote and the backslash. *)
Definition escape_char (c : ascii) : string :=
  let n := PyStr.code c in
  if (n =? 34)%N then "\" +:+ quote
  else if (n =? 92)%N then "\\"
  else if (n =? 8)%N then "\b"
  else if (n =? 12)%N then "\f"
  else if (n =? 10)%N then "\n"
  else if (n =? 13)%N then "\r"
  else if (n =? 9)%N then "\t"
  else if ((n <? 32) || (126 <? n))%N then "\u" +:+ Sha256.hex_of 4 (Z.of_N n)
  else String c EmptyString.

Fixpoint escape (s : string) : string :=
  match s with
  | String c s' => escape_char c +:+ escape s'
  | EmptyString => EmptyString
  end.

Definition encode_basestring_ascii (s : string) : string :=
  quote +:+ escape s +:+ quote.

(** [int.__repr__] *)
Definition int_repr (z : Z) : string := NilZero.string_of_int (Z.to_int z).

(** Items ordered by key, as [sorted(dct.items())] orders them (keys
    are compared by code point; a dict has no two equal keys, so the
    values are never compared). *)
Fixpoint insert_item {A : Type} (kv : string * A) (l : list (string * A))
  : list (string * A) :=
  match l with
  | [] => [kv]
  | kv' :: l' =>
      if String.leb (fst kv) (fst kv') then kv :: l
      else kv' :: insert_item kv l'
  end.

Definition sort_items {A : Type} (l : list (string * A)) : list (string * A) :=
  fold_right insert_item [] l.

Definition item_text (kt : string * string) : string :=
  encode_basestring_ascii (fst kt) +:+ ": " +:+ snd kt.

(** [json.dumps(v, sort_keys=True)] with the default separators.  The
    values of a dict are rendered first and the rendered items sorted,
    which gives the text of rendering the sorted items. *)
Fixpoint dumps (v : json) : string :=
  match v with
  | JNull => "null"
  | JBool true => "true"
  | JBool false => "false"
  | JInt z => int_repr z
  | JStr s => encode_basestring_ascii s
  | JList l => "[" +:+ String.concat ", " (map dumps l) +:+ "]"
  | JDict d =>
      "{" +:+ String.concat ", "
                (map item_text
                     (sort_items (map (fun kv => (fst kv, dumps (snd kv))) d)))
          +:+ "}"
  end.





End Json.
Import Json.

(** ** The license manager *)
Module LicenseManager.

(** License types *)
Definition LICENSE_TYPE_STRIPE : string := "stripe_payment".
Definition LICENSE_TYPE_KEY : string := "license_key".
Definition LICENSE_TYPE_PROMO : string := "promo_code".

(** Exceptions that escape the methods (the handlers only catch
    [json.JSONDecodeError] and [IOError]).  [AttributeError] and
    [TypeError] come from what the methods do with a parsed document.
    The other three come from reading a file: [UnicodeDecodeError] when
    its bytes are not text in the encoding of [open], [ValueError] when
    it holds an integer of more digits than [int] converts, and
    [RecursionError] when it is nested too deep. *)
Inductive exn : Type :=
| AttributeError
| TypeError
| UnicodeDecodeError
| ValueError
| RecursionError.

Inductive result (A : Type) : Type :=
| Ret (a : A)
| Raise (e : exn).
Arguments Ret {A} a.
Arguments Raise {A} e.

(** A file as the methods observe it.  A readable JSON file is the
    document [json.load] makes of it, and [json.dump] of a document
    leaves a file that loads as that document. *)
Inductive file : Type :=
| Missing                 (* [exists()] is false *)
| Unreadable              (* [open] raises [IOError] *)
| Malformed               (* [json.load] raises [JSONDecodeError] *)
| Document (v : json)     (* [json.load] returns [v] *)
| Raising (e : exn).      (* reading it raises [e], which no handler catches *)

(** What happens to the writes of one [_save_data] call. *)
Inductive save_io : Type :=
| SaveOk
| MkdirFails              (* [parent.mkdir] raises *)
| OpenFails               (* [open(.., 'w')] raises *)
| WriteFails.             (* [json.dump] raises after the file was truncated *)

(** One constructor per [logger] call of the module. *)
Inductive log_record : Type :=
| Warning_checksum_mismatch
| Debug_loaded (licensed : json)
| Warning_load_failed
| Debug_saved
| Error_save_failed
| Info_activated_stripe (session_prefix : string)
| Warning_invalid_key
| Info_activated_key
| Info_activated_promo
| Debug_keys_loaded (count : nat)
| Warning_keys_load_failed
| Info_revoked.

(** The attributes of a [LicenseManager] together with the content of
    the two paths it was given ([license_keys_file] is optional). *)
Record state : Type := State {
  data : dict;
  _license_keys_cache : option (gset string);
  license_file : file;
  license_keys_file : option file }.

Definition with_data (d : dict) (s : state) : state :=
  State d (_license_keys_cache s) (license_file s) (license_keys_file s).
Definition with_cache (c : option (gset string)) (s : state) : state :=
  State (data s) c (license_file s) (license_keys_file s).
Definition with_license_file (f : file) (s : state) : state :=
  State (data s) (_license_keys_cache s) f (license_keys_file s).

(** A method call: the value returned or the exception raised, the
    state it leaves, and the records it logged. *)
Definition M (A : Type) : Type := state -> result A * state * list log_record.

Definition res {A} (o : result A * state * list log_record) : result A := fst (fst o).
Definition st {A} (o : result A * state * list log_record) : state := snd (fst o).
Definition logged {A} (o : result A * state * list log_record) : list log_record := snd o.

Definition ret {A} (a : A) : M A := fun s => (Ret a, s, []).
Definition raise {A} (e : exn) : M A := fun s => (Raise e, s, []).
Definition bind {A B} (m : M A) (f : A -> M B) : M B :=
  fun s =>
    match m s with
    | (Ret a, s1, l1) =>
        match f a s1 with (r, s2, l2) => (r, s2, l1 ++ l2) end
    | (Raise e, s1, l1) => (Raise e, s1, l1)
    end.
Definition log (r : log_record) : M unit := fun s => (Ret tt, s, [r]).
Definition gets {A} (f : state -> A) : M A := fun s => (Ret (f s), s, []).
Definition modify (f : state -> state) : M unit := fun s => (Ret tt, f s, []).

Notation "x <- m ;; k" := (bind m (fun x => k))
  (at level 100, m at level 99, k at level 200, right associativity).
Notation "m ;;; k" := (bind m (fun _ => k))
  (at level 100, k at level 200, right associativity).

Definition opt_str (o : option string) : json :=
  match o with Some s => JStr s | None => JNull end.

Definition _default_data : dict :=
  [ ("licensed", JBool false);
    ("license_type", JNull);
    ("stripe_session_id", JNull);
    ("stripe_payment_intent", JNull);
    ("license_key", JNull);
    ("activated_at", JNull);
    ("email", JNull);
    ("checksum", JNull) ].

Definition _calculate_checksum (data : dict) : string :=
  let data_copy := Json.without "checksum" data in
  let data_str := Json.dumps (JDict data_copy) in
  PyStr.prefix 16 (Sha256.hexdigest (Sha256.encode data_str)).

Definition _verify_checksum (data : dict) : bool :=
  let stored_checksum := Json.get "checksum" data in
  if negb (Json.truthy stored_checksum) then true
  else
    let calculated := _calculate_checksum data in
    Json.eq_str stored_checksum calculated.

(** [json.load] may hand back something that is not a dict; [data.get]
    in [_verify_checksum] then raises [AttributeError], which the
    handler of [_load_data] does not catch. *)
Definition _load_data : M dict :=
  fun s =>
    match license_file s with
    | Missing => (Ret _default_data, s, [])
    | Unreadable | Malformed => (Ret _default_data, s, [Warning_load_failed])
    | Document (JDict data) =>
        if negb (_verify_checksum data)
        then (Ret _default_data, s, [Warning_checksum_mismatch])
        else (Ret data, s,
              [Debug_loaded (Json.get_default "licensed" (JBool false) data)])
    | Document _ => (Raise AttributeError, s, [])
    | Raising e => (Raise e, s, [])
    end.

Definition __init__ (license_file : file) (license_keys_file : option file)
  : result state * list log_record :=
  let s := State [] None license_file license_keys_file in
  match _load_data s with
  | (Ret d, s1, l) => (Ret (with_cache None (with_data d s1)), l)
  | (Raise e, _, l) => (Raise e, l)
  end.

Definition _save_data (io : save_io) : M unit :=
  fun s =>
    match io with
    | MkdirFails => (Ret tt, s, [Error_save_failed])
    | _ =>
        let stamped :=
          Json.set "checksum" (JStr (_calculate_checksum (data s))) (data s) in
        let s1 := with_data stamped s in
        match io with
        | OpenFails => (Ret tt, s1, [Error_save_failed])
        | WriteFails => (Ret tt, with_license_file Malformed s1, [Error_save_failed])
        | _ => (Ret tt, with_license_file (Document (JDict stamped)) s1, [Debug_saved])
        end
    end.

Definition is_licensed : M json :=
  gets (fun s => Json.get_default "licensed" (JBool false) (data s)).

Definition get_license_type : M json :=
  gets (fun s => Json.get "license_type" (data s)).

Definition get_license_info : M dict :=
  gets (fun s =>
    [ ("licensed", Json.get_default "licensed" (JBool false) (data s));
      ("type", Json.get "license_type" (data s));
      ("activated_at", Json.get "activated_at" (data s));
      ("email", Json.get "email" (data s)) ]).

(** [now] is what [datetime.now().isoformat()] returns during the call. *)
Definition activate_with_stripe (now : string) (io : save_io)
    (session_id : string) (payment_intent email : option string) : M bool :=
  modify (with_data
    [ ("licensed", JBool true);
      ("license_type", JStr LICENSE_TYPE_STRIPE);
      ("stripe_session_id", JStr session_id);
      ("stripe_payment_intent", opt_str payment_intent);
      ("license_key", JNull);
      ("activated_at", JStr now);
      ("email", opt_str email);
      ("checksum", JNull) ]) ;;;
  _save_data io ;;;
  log (Info_activated_stripe (PyStr.prefix 20 session_id)) ;;;
  ret true.

Section Keys.
(** [str.upper], for the methods that normalize a key. *)
Variable upper : string -> string.

Definition _hash_key (key : string) : string :=
  let normalized := upper (PyStr.strip key) in
  Sha256.hexdigest (PyStr.utf8 normalized).

(** The set is filled one key at a time, so an element without
    [strip] leaves the keys before it in the cache. *)
Fixpoint add_keys (keys : list json) (cache : gset string)
  : result unit * gset string :=
  match keys with
  | [] => (Ret tt, cache)
  | JStr key :: keys' => add_keys keys' ({[ upper (PyStr.strip key) ]} ∪ cache)
  | _ :: _ => (Raise AttributeError, cache)
  end.

(** [for key in v]: a list yields its elements, a str its characters,
    a dict its keys; the other values are not iterable. *)
Definition iterate (v : json) : result (list json) :=
  match v with
  | JList l => Ret l
  | JStr s => Ret (map (fun c => JStr (String c EmptyString)) (list_ascii_of_string s))
  | JDict d => Ret (map (fun kv => JStr (fst kv)) d)
  | _ => Raise TypeError
  end.

(** The body of the [with] block on the parsed document [data],
    starting from the empty cache: the new format is a dict with a
    [keys] entry, the legacy format a bare list. *)
Definition fill_cache (data : json) : result unit * gset string :=
  match data with
  | JDict d =>
      if Json.contains "keys" d then
        match iterate (Json.get "keys" d) with
        | Ret keys => add_keys keys ∅
        | Raise e => (Raise e, ∅)
        end
      else (Ret tt, ∅)
  | JList keys => add_keys keys ∅
  | _ => (Ret tt, ∅)
  end.

Definition _load_license_keys : M (gset string) :=
  fun s =>
    match _license_keys_cache s with
    | Some cache => (Ret cache, s, [])
    | None =>
        let s0 := with_cache (Some ∅) s in
        match license_keys_file s with
        | Some (Document data) =>
            match fill_cache data with
            | (Ret _, cache) =>
                (Ret cache, with_cache (Some cache) s, [Debug_keys_loaded (size cache)])
            | (Raise e, cache) => (Raise e, with_cache (Some cache) s, [])
            end
        | Some Unreadable | Some Malformed => (Ret ∅, s0, [Warning_keys_load_failed])
        | Some (Raising e) => (Raise e, s0, [])
        | Some Missing | None => (Ret ∅, s0, [])
        end
    end.

Definition validate_license_key (key : string) : M bool :=
  let normalized_key := upper (PyStr.strip key) in
  valid_keys <- _load_license_keys ;;
  ret (bool_decide (normalized_key ∈ valid_keys)).

Definition activate_with_key (now : string) (io : save_io)
    (license_key : string) : M bool :=
  valid <- validate_license_key license_key ;;
  if negb valid then
    log Warning_invalid_key ;;; ret false
  else
    let normalized_key := upper (PyStr.strip license_key) in
    modify (with_data
      [ ("licensed", JBool true);
        ("license_type", JStr LICENSE_TYPE_KEY);
        ("stripe_session_id", JNull);
        ("stripe_payment_intent", JNull);
        ("license_key", JStr normalized_key);
        ("activated_at", JStr now);
        ("email", JNull);
        ("checksum", JNull) ]) ;;;
    _save_data io ;;;
    log Info_activated_key ;;;
    ret true.

End Keys.

Definition activate_with_promo (now : string) (io : save_io)
    (session_id promo_code : string) (email : option string) : M bool :=
  modify (with_data
    [ ("licensed", JBool true);
      ("license_type", JStr LICENSE_TYPE_PROMO);
      ("stripe_session_id", JStr session_id);
      ("stripe_payment_intent", JNull);
      ("license_key", JStr promo_code);
      ("activated_at", JStr now);
      ("email", opt_str email);
      ("checksum", JNull) ]) ;;;
  _save_data io ;;;
  log Info_activated_promo ;;;
  ret true.

Definition revoke_license (io : save_io) : M unit :=
  modify (with_data _default_data) ;;;
  _save_data io ;;;
  log Info_revoked.

Section ActivationDate.
(** [datetime.fromisoformat] on a [str]: [None] stands for
    [ValueError]. *)
Variable datetime : Type.
Variable fromisoformat : string -> option datetime.

(** A truthy value that is not a [str] makes [fromisoformat] raise
    [TypeError], which [except ValueError] lets through. *)
Definition get_activation_date : M (option datetime) :=
  fun s =>
    let activated_at := Json.get "activated_at" (data s) in
    if Json.truthy activated_at then
      match activated_at with
      | JStr text =>
          match fromisoformat text with
          | Some d => (Ret (Some d), s, [])
          | None => (Ret None, s, [])
          end
      | _ => (Raise TypeError, s, [])
      end
    else (Ret None, s, []).
End ActivationDate.

End LicenseManager.
Import LicenseManager.

(** ** The module-level instance

    [_license_manager_instance] is [None] or refers to the one manager
    object, and [get_license_manager] hands out that reference: whoever
    holds it works on the same object.  The objects
    [get_license_manager] has created live in a store, each as its two
    attributes that change, [data] and [_license_keys_cache]; a
    reference is an index into the store.  The paths of these objects
    are [config.LICENSE_FILE] and [config.LICENSE_KEYS_FILE], and the
    files at the two paths belong to the process. *)
Definition object : Type := (dict * option (gset string))%type.

Record process : Type := Process {
  store : list object;
  _license_manager_instance : option nat;
  LICENSE_FILE : file;
  LICENSE_KEYS_FILE : option file }.

(** The manager a reference leads to, with the files as they are. *)
Definition manager_at (p : process) (r : nat) : option state :=
  match store p !! r with
  | Some o => Some (State (fst o) (snd o) (LICENSE_FILE p) (LICENSE_KEYS_FILE p))
  | None => None
  end.

Definition get_license_manager (p : process)
  : result nat * process * list log_record :=
  match _license_manager_instance p with
  | Some r => (Ret r, p, [])
  | None =>
      match __init__ (LICENSE_FILE p) (LICENSE_KEYS_FILE p) with
      | (Ret s, l) =>
          let r := length (store p) in
          (Ret r,
           Process (store p ++ [(data s, _license_keys_cache s)]) (Some r)
                   (LICENSE_FILE p) (LICENSE_KEYS_FILE p),
           l)
      | (Raise e, l) => (Raise e, p, l)
      end
  end.

Definition reset_license_manager (p : process) : process :=
  Process (store p) None (LICENSE_FILE p) (LICENSE_KEYS_FILE p).

(** A method called through a reference works on the object in the
    store and on the files, and leaves its changes there.  ([None] for
    a reference to nothing, which [get_license_manager] never hands
    out.) *)
Definition call {A : Type} (r : nat) (m : M A) (p : process)
  : option (result A * process * list log_record) :=
  match manager_at p r with
  | Some s =>
      match m s with
      | (a, s1, l) =>
          Some (a,
                Process (<[r := (data s1, _license_keys_cache s1)]> (store p))
                        (_license_manager_instance p)
                        (license_file s1) (license_keys_file s1),
                l)
      end
  | None => None
  end.

(** The instance, if there is one, is an object of the store. *)
Definition well_formed (p : process) : Prop :=
  forall r, _license_manager_instance p = Some r -> (r < length (store p))%nat.

(** ** What the statements below talk about *)

(** The default Unlicensed record, with its checksum still unset or
    already stamped by a save. *)
Definition stamped_default : dict :=
  Json.set "checksum" (JStr (_calculate_checksum _default_data)) _default_data.

Definition is_default_record (d : dict) : Prop :=
  d = _default_data \/ d = stamped_default.

(** The two steps of [_calculate_checksum]: the text that is hashed and
    the truncated hash of a text. *)
Definition canonical_text (d : dict) : string :=
  Json.dumps (JDict (Json.without "checksum" d)).

Definition hash16 (text : string) : string :=
  PyStr.prefix 16 (Sha256.hexdigest (Sha256.encode text)).

(** The truncated hash tells two given texts apart unless they are the
    same text. *)
Definition no_collision (text1 text2 : string) : Prop :=
  hash16 text1 = hash16 text2 -> text1 = text2.

(** An operation that saves reports the outcome of the save when a
    failed save changes what it returns. *)
Definition reports_save_outcome (op : save_io -> M bool) (s : state) : Prop :=
  forall io, io <> SaveOk -> res (op io s) <> res (op SaveOk s).

(** A key-list path that gives the loader nothing to read: not
    configured, missing, unreadable, not JSON, or JSON that is neither a
    dict with a [keys] entry nor a non-empty list. *)
Definition no_key_list (f : option file) : Prop :=
  f = None \/ f = Some Missing \/ f = Some Unreadable \/ f = Some Malformed \/
  f = Some (Document (JList [])) \/
  (exists d, f = Some (Document (JDict d)) /\ Json.lookup "keys" d = None) \/
  f = Some (Document JNull) \/
  (exists b, f = Some (Document (JBool b))) \/
  (exists z, f = Some (Document (JInt z))) \/
  (exists t, f = Some (Document (JStr t))).

(** A manager constructed anew on the files a state leaves behind, as
    the next run of the program does. *)
Definition restart (s : state) : result state * list log_record :=
  __init__ (license_file s) (license_keys_file s).

(** The two shapes of a key list: the bare list of keys, or a dict
    whose [keys] entry is that list. *)
Definition lists_keys (v : json) (ks : list string) : Prop :=
  v = JList (map JStr ks) \/
  exists d, v = JDict d /\ Json.lookup "keys" d = Some (JList (map JStr ks)).

(** Lower-case hexadecimal digits, and strings made of characters of
    one kind. *)
Definition lower_hex (c : ascii) : bool :=
  let n := PyStr.code c in
  ((48 <=? n) && (n <=? 57) || (97 <=? n) && (n <=? 102))%N.

Fixpoint all_chars (p : ascii -> bool) (s : string) : bool :=
  match s with
  | EmptyString => true
  | String c s' => p c && all_chars p s'
  end.

(** The order [sort_items] sorts by. *)
Definition key_le {A : Type} (x y : string * A) : Prop :=
  String.leb (fst x) (fst y) = true.

(** The items of a dict as [dumps] renders them, and the length they
    give its text: each item brings its own text and two more
    characters. *)
Definition rendered (d : dict) : list (string * string) :=
  map (fun kv => (fst kv, Json.dumps (snd kv))) d.

Fixpoint weight (items : list (string * string)) : nat :=
  match items with
  | [] => 0
  | kt :: rest => String.length (Json.item_text kt) + 2 + weight rest
  end%nat.

(** What the statements say about keys, for the function [upper] the
    methods are given. *)
Module KeySpec.
Section Normalization.
Variable upper : string -> string.

(** The key a caller types, as it is compared and stored. *)
Definition normalize (key : string) : string := upper (PyStr.strip key).

(** Every cached key is its own normalized form. *)
Definition keys_normalized (s : state) : Prop :=
  forall cache, _license_keys_cache s = Some cache ->
                forall x, x ∈ cache -> normalize x = x.

(** States a manager can be in: constructed from the files, then any
    sequence of method calls, the files changing under it at will. *)
Inductive reachable : state -> Prop :=
| reach_init lf kf s :
    fst (__init__ lf kf) = Ret s -> reachable s
| reach_files s lf kf :
    reachable s -> reachable (State (data s) (_license_keys_cache s) lf kf)
| reach_stripe s now io session_id payment_intent email :
    reachable s ->
    reachable (st (activate_with_stripe now io session_id payment_intent email s))
| reach_promo s now io session_id promo_code email :
    reachable s ->
    reachable (st (activate_with_promo now io session_id promo_code email s))
| reach_key s now io key :
    reachable s -> reachable (st (activate_with_key upper now io key s))
| reach_validate s key :
    reachable s -> reachable (st (validate_license_key upper key s))
| reach_revoke s io :
    reachable s -> reachable (st (revoke_license io s)).

End Normalization.
End KeySpec.
Import KeySpec.

(** Concrete states and files used to run the model. *)
Module Samples.

Definition clock : string := "2024-01-01T00:00:00".

(** A first run: no license file, no key file configured. *)
Definition fresh : state := State _default_data None Missing None.

Definition paid : state :=
  st (activate_with_stripe clock SaveOk "cs_test_123" None None fresh).

Definition paid_document : dict :=
  [ ("licensed", JBool true);
    ("license_type", JStr "stripe_payment");
    ("stripe_session_id", JStr "cs_test_123");
    ("stripe_payment_intent", JNull);
    ("license_key", JNull);
    ("activated_at", JStr clock);
    ("email", JNull);
    ("checksum", JStr "587e4687fad2eb75") ].

(** A record written before checksums existed. *)
Definition legacy_document : dict :=
  [ ("licensed", JBool true);
    ("license_type", JStr "license_key");
    ("license_key", JStr "BD-AAAA-BBBB-CCCC-DDDD");
    ("activated_at", JStr "2023-05-01T09:30:00") ].

(** The same, with a number where the timestamp belongs. *)
Definition legacy_numeric_date : dict :=
  [ ("licensed", JBool true);
    ("license_type", JStr "license_key");
    ("license_key", JStr "BD-AAAA-BBBB-CCCC-DDDD");
    ("activated_at", JInt 1682933400) ].


Definition blanked_document : dict :=
  [ ("licensed", JBool true); ("checksum", JStr EmptyString) ].

Definition on_disk (d : dict) : state :=
  State _default_data None (Document (JDict d)) None.

Definition key_list : json :=
  JDict [ ("keys", JList [JStr "BD-AAAA-BBBB-CCCC-DDDD"]) ].

Definition with_keys (v : json) : state :=
  State _default_data None Missing (Some (Document v)).

End Samples.

(** More states and documents to run the model on. *)
Module Cases.

(** A first run with the key list of [Samples] at hand. *)
Definition keyed : state := Samples.with_keys Samples.key_list.

(** The saved Stripe record of [Samples] with the checksum moved to
    the front. *)
Definition paid_reordered : dict :=
  [ ("checksum", JStr "587e4687fad2eb75");
    ("licensed", JBool true);
    ("license_type", JStr "stripe_payment");
    ("stripe_session_id", JStr "cs_test_123");
    ("stripe_payment_intent", JNull);
    ("license_key", JNull);
    ("activated_at", JStr Samples.clock);
    ("email", JNull) ].

(** A licensed installation: the saved Stripe record on disk and in
    memory. *)
Definition licensed : state := Samples.paid.

(** A process that has made no manager yet, its license file holding
    the JSON document [null]. *)
Definition null_file : process := Process [] None (Document JNull) None.

(** A process on a first run: no manager yet, no files. *)
Definition first_run : process := Process [] None Missing None.

(** A key list in the legacy format, and one with the same key in
    lower case and padded. *)
Definition legacy_key_list : json := JList [JStr "  bd-aaaa-bbbb-cccc-dddd "].

(** A key list whose second entry is not a string. *)
Definition broken_key_list : json := JList [JStr "BD-GOOD"; JInt 1].

End Cases.

(** ** The model against hashlib and json: known answers *)

Example sha256_empty :
  Sha256.hexdigest (Sha256.encode EmptyString) =
  "e3b0c44298fc1c149afbf4c8996fb92427ae41e4649b934ca495991b7852b855"%string.
Proof. vm_compute. reflexivity. Qed.

Example sha256_constants :
  nth 0 Sha256.round_constants 0 = 0x428a2f98 /\
  nth 63 Sha256.round_constants 0 = 0xc67178f2 /\
  Sha256.ra Sha256.initial_hash = 0x6a09e667 /\
  Sha256.rh Sha256.initial_hash = 0x5be0cd19.
Proof. vm_compute. repeat split; reflexivity. Qed.

Example sha256_abc :
  Sha256.hexdigest (Sha256.encode "abc") =
  "ba7816bf8f01cfea414140de5dae2223b00361a396177a9cb410ff61f20015ad"%string.
Proof. vm_compute. reflexivity. Qed.

Example sha256_two_blocks :
  Sha256.hexdigest
    (Sha256.encode "abcdbcdecdefdefgefghfghighijhijkijkljklmklmnlmnomnopnopq") =
  "248d6a61d20638b8e5c026930c3e6039a33ce45964ff2167f6ecedd419db06c1"%string.
Proof. vm_compute. reflexivity. Qed.

Example dumps_sorts_and_escapes :
  Json.dumps
    (JDict [ ("b", JList [JInt 1; JInt (-20); JBool true; JNull]);
             ("a b", JStr (String (ascii_of_N 233) ("x" +:+ Json.quote +:+ "\y")));
             ("B", JDict [("z", JInt 0); ("y", JList [])]) ]) =
  "{" +:+ Json.quote +:+ "B" +:+ Json.quote +:+ ": {"
      +:+ Json.quote +:+ "y" +:+ Json.quote +:+ ": [], "
      +:+ Json.quote +:+ "z" +:+ Json.quote +:+ ": 0}, "
      +:+ Json.quote +:+ "a b" +:+ Json.quote +:+ ": "
      +:+ Json.quote +:+ "\u00e9x\" +:+ Json.quote +:+ "\\y" +:+ Json.quote +:+ ", "
      +:+ Json.quote +:+ "b" +:+ Json.quote +:+ ": [1, -20, true, null]}".
Proof. vm_compute. reflexivity. Qed.

Example stripe_activation_runs :
  activate_with_stripe Samples.clock SaveOk "cs_test_123" None None Samples.fresh =
  (Ret true,
   State Samples.paid_document None (Document (JDict Samples.paid_document)) None,
   [Debug_saved; Info_activated_stripe "cs_test_123"]).
Proof. vm_compute. reflexivity. Qed.

Example strip_upper_runs :
  normalize PyStr.ascii_upper "  bd-aAzZ{`19 	" = "BD-AAZZ{`19".
Proof. vm_compute. reflexivity. Qed.

Example hash_key_known_answer :
  _hash_key PyStr.ascii_upper " bd-aaaa-bbbb-cccc-dddd " =
  "05712c27fe37d11b49e7bcaeac72229ebac77a0d95decc1ef118983720983ec8" /\
  Sha256.hexdigest (PyStr.utf8 (String (ascii_of_N 233) "A")) =
  "d1d7ea2038ab65efc0590ac573edd92a992f7d7b006671d70820b9472d38e837".
Proof. vm_compute. split; reflexivity. Qed.

(** The hash is never unfolded by [simpl]; closed terms are evaluated
    with [vm_compute]. *)
Arguments Sha256.hexdigest : simpl never.
Arguments _calculate_checksum : simpl never.

(** * The record, the checksum and the activation engine

    The statements of this part do not involve license keys. *)

(** ** Dictionaries *)
Section DictFacts.

Lemma lookup_set_eq (k : string) (v : json) (d : dict) :
  Json.lookup k (Json.set k v d) = Some v.
Proof.
  induction d as [|[k' v'] d IH]; simpl.
  - now rewrite String.eqb_refl.
  - destruct (String.eqb k k') eqn:E; simpl; rewrite E; auto.
Qed.

Lemma lookup_set_ne (k k' : string) (v : json) (d : dict) :
  k <> k' -> Json.lookup k' (Json.set k v d) = Json.lookup k' d.
Proof.
  intros Hne. induction d as [|[k0 v0] d IH]; simpl.
  - apply String.eqb_neq in Hne. now rewrite String.eqb_sym, Hne.
  - destruct (String.eqb k k0) eqn:E; simpl.
    + apply String.eqb_eq in E. subst k0.
      apply String.eqb_neq in Hne. now rewrite String.eqb_sym, Hne.
    + now rewrite IH.
Qed.

Lemma without_set (k : string) (v : json) (d : dict) :
  Json.without k (Json.set k v d) = Json.without k d.
Proof.
  unfold Json.without.
  induction d as [|[k' v'] d IH]; simpl.
  - now rewrite String.eqb_refl.
  - destruct (String.eqb k k') eqn:E; simpl.
    + now rewrite String.eqb_sym, E.
    + now rewrite String.eqb_sym, E, IH.
Qed.

Lemma get_set_eq (k : string) (v : json) (d : dict) :
  Json.get k (Json.set k v d) = v.
Proof. unfold Json.get. now rewrite lookup_set_eq. Qed.

Lemma get_set_ne (k k' : string) (v : json) (d : dict) :
  k <> k' -> Json.get k' (Json.set k v d) = Json.get k' d.
Proof. intros H. unfold Json.get. now rewrite lookup_set_ne. Qed.

End DictFacts.

(** ** The checksum is sixteen characters and ignores the stored one *)
Section ChecksumFacts.

Lemma length_string_of_list_ascii (l : list ascii) :
  String.length (string_of_list_ascii l) = length l.
Proof. induction l as [|c l IH]; simpl; [reflexivity | now rewrite IH]. Qed.

Lemma length_string_app (a b : string) :
  String.length (a +:+ b) = (String.length a + String.length b)%nat.
Proof. induction a as [|c a IH]; simpl; [reflexivity | now rewrite IH]. Qed.

Lemma length_hex_of (n : nat) (x : Z) : String.length (Sha256.hex_of n x) = n.
Proof.
  unfold Sha256.hex_of.
  now rewrite length_string_of_list_ascii, length_map, length_rev, length_seq.
Qed.

Lemma length_hexdigest (msg : list Z) :
  String.length (Sha256.hexdigest msg) = 64%nat.
Proof.
  unfold Sha256.hexdigest. cbv zeta.
  cbn [map String.concat].
  repeat rewrite length_string_app.
  repeat rewrite length_hex_of. reflexivity.
Qed.

Lemma length_prefix (n : nat) (s : string) :
  (n <= String.length s)%nat -> String.length (PyStr.prefix n s) = n.
Proof.
  unfold PyStr.prefix. revert s.
  induction n as [|n IH]; intros s Hn.
  - destruct s; reflexivity.
  - destruct s as [|c s]; simpl in *; [lia|].
    rewrite IH; [reflexivity | lia].
Qed.

Lemma checksum_length (d : dict) : String.length (_calculate_checksum d) = 16%nat.
Proof.
  unfold _calculate_checksum. cbv zeta.
  apply length_prefix. rewrite length_hexdigest. lia.
Qed.

Lemma checksum_truthy (d : dict) : Json.truthy (JStr (_calculate_checksum d)) = true.
Proof.
  pose proof (checksum_length d) as H. cbn [Json.truthy].
  destruct (_calculate_checksum d); [discriminate H | reflexivity].
Qed.

Lemma checksum_ignores_stored (v : json) (d : dict) :
  _calculate_checksum (Json.set "checksum" v d) = _calculate_checksum d.
Proof. unfold _calculate_checksum. now rewrite without_set. Qed.

Lemma verify_stamped (d : dict) :
  _verify_checksum (Json.set "checksum" (JStr (_calculate_checksum d)) d) = true.
Proof.
  unfold _verify_checksum.
  rewrite get_set_eq, checksum_truthy, checksum_ignores_stored.
  cbn [negb Json.eq_str]. apply String.eqb_refl.
Qed.

End ChecksumFacts.

(** ** Entitlement store: loading *)
Section LoadFacts.

Lemma JStr_inj (a b : string) : JStr a = JStr b -> a = b.
Proof. intros H. now injection H. Qed.

Lemma Document_JDict_inj (a b : dict) :
  Document (JDict a) = Document (JDict b) -> a = b.
Proof. intros H. now injection H. Qed.

Lemma eq_str_false (v : json) (c : string) :
  v <> JStr c -> Json.eq_str v c = false.
Proof.
  intros Hne. destruct v; try reflexivity. cbn [Json.eq_str].
  apply String.eqb_neq. congruence.
Qed.

Lemma verify_falsy (d : dict) :
  Json.truthy (Json.get "checksum" d) = false -> _verify_checksum d = true.
Proof. intros H. unfold _verify_checksum. now rewrite H. Qed.

Lemma verify_mismatch (d : dict) :
  Json.truthy (Json.get "checksum" d) = true ->
  Json.get "checksum" d <> JStr (_calculate_checksum d) ->
  _verify_checksum d = false.
Proof.
  intros Ht Hne. unfold _verify_checksum. rewrite Ht. cbn [negb].
  now apply eq_str_false.
Qed.

Lemma load_accepts (s : state) (d : dict) :
  license_file s = Document (JDict d) ->
  _verify_checksum d = true ->
  _load_data s =
    (Ret d, s, [Debug_loaded (Json.get_default "licensed" (JBool false) d)]).
Proof. intros Hf Hv. unfold _load_data. now rewrite Hf, Hv. Qed.

Lemma load_rejects (s : state) (d : dict) :
  license_file s = Document (JDict d) ->
  _verify_checksum d = false ->
  _load_data s = (Ret _default_data, s, [Warning_checksum_mismatch]).
Proof. intros Hf Hv. unfold _load_data. now rewrite Hf, Hv. Qed.

Lemma without_set_ne (key k : string) (v : json) (d : dict) :
  k <> key ->
  Json.without key (Json.set k v d) = Json.set k v (Json.without key d).
Proof.
  intros Hne. apply String.eqb_neq in Hne. unfold Json.without.
  induction d as [|[k0 v0] d IH]; cbn [Json.set List.filter fst].
  - now rewrite Hne.
  - destruct (String.eqb k k0) eqn:E.
    + apply String.eqb_eq in E. subst k0.
      cbn [List.filter fst]. rewrite Hne. cbn [negb Json.set].
      now rewrite String.eqb_refl.
    + cbn [List.filter fst].
      destruct (String.eqb k0 key); cbn [negb Json.set].
      * apply IH.
      * now rewrite E, IH.
Qed.

Lemma checksum_of_edit (k : string) (v c : json) (d : dict) :
  k <> "checksum" ->
  _calculate_checksum (Json.set k v (Json.set "checksum" c d)) =
  _calculate_checksum (Json.set k v d).
Proof.
  intros Hne. unfold _calculate_checksum.
  now rewrite !(without_set_ne "checksum" k) by exact Hne; rewrite without_set.
Qed.

End LoadFacts.

(** ** The canonical text pins down every scalar field

    [escape] and [int_repr] can be read back, so two scalars with the
    same rendering are the same scalar; and in the text of a dict the
    rendering of one field sits between a prefix and a suffix that do
    not depend on it. *)



Lemma string_app_cons (x : ascii) (a b : string) :
  String x a +:+ b = String x (a +:+ b).
Proof. reflexivity. Qed.

Lemma string_app_nil_l (b : string) : EmptyString +:+ b = b.
Proof. reflexivity. Qed.





Lemma string_app_assoc (a b c : string) : (a +:+ b) +:+ c = a +:+ (b +:+ c).
Proof.
  induction a as [|x a IH]; [reflexivity|]. rewrite !string_app_cons. now f_equal.
Qed.










Section SortKeepsPlace.
Context {A : Type}.




End SortKeepsPlace.




Section SaveFacts.

Lemma save_ok (s : state) :
  _save_data SaveOk s =
    (Ret tt,
     with_license_file
       (Document (JDict (Json.set "checksum" (JStr (_calculate_checksum (data s))) (data s))))
       (with_data (Json.set "checksum" (JStr (_calculate_checksum (data s))) (data s)) s),
     [Debug_saved]).
Proof. reflexivity. Qed.

Lemma save_returns (io : save_io) (s : state) : res (_save_data io s) = Ret tt.
Proof. destruct io; reflexivity. Qed.

Lemma save_keeps_cache (io : save_io) (s : state) :
  _license_keys_cache (st (_save_data io s)) = _license_keys_cache s /\
  license_keys_file (st (_save_data io s)) = license_keys_file s.
Proof. destruct io; split; reflexivity. Qed.

End SaveFacts.


(** C3. Saving a record and loading it again returns that record with
    its checksum attached: the stamped checksum is the one recomputed at
    load, so the record is accepted unchanged.  It holds for every
    record, in particular for the licensed ones the activations build. *)
Theorem C3_save_then_load_roundtrip :
  forall (s : state),
    let stamped :=
      Json.set "checksum" (JStr (_calculate_checksum (data s))) (data s) in
    let saved := st (_save_data SaveOk s) in
    res (_save_data SaveOk s) = Ret tt /\
    license_file saved = Document (JDict stamped) /\
    _load_data saved =
      (Ret stamped, saved,
       [Debug_loaded (Json.get_default "licensed" (JBool false) stamped)]) /\
    Json.without "checksum" stamped = Json.without "checksum" (data s) /\
    Json.get "checksum" stamped = JStr (_calculate_checksum stamped).
Proof.
  intros s stamped saved. subst saved. rewrite save_ok.
  cbn [res st fst snd]. fold stamped.
  split; [reflexivity|]. split; [reflexivity|]. split.
  - apply load_accepts; [reflexivity|]. apply verify_stamped.
  - split.
    + apply without_set.
    + subst stamped. rewrite get_set_eq. now rewrite checksum_ignores_stored.
Qed.

(** C4. A persisted record with no checksum field is returned by
    [_load_data] exactly as stored, whatever it says, [licensed = true]
    included. *)
Theorem C4_record_without_checksum_loaded_as_is :
  forall (s : state) (d : dict),
    license_file s = Document (JDict d) ->
    Json.lookup "checksum" d = None ->
    _load_data s =
      (Ret d, s, [Debug_loaded (Json.get_default "licensed" (JBool false) d)]).
Proof.
  intros s d Hf Hnone.
  apply (load_accepts s d Hf). apply verify_falsy.
  unfold Json.get. now rewrite Hnone.
Qed.

(** C10. A checksum field that is present but is the empty string or
    null is trusted: [_verify_checksum] returns true and [_load_data]
    returns the record as stored.  Hence any record, whatever its other
    fields, is accepted once its checksum is overwritten with the empty
    string. *)
Theorem C10_empty_or_null_checksum_is_trusted :
  (forall (s : state) (d : dict) (c : json),
      license_file s = Document (JDict d) ->
      Json.lookup "checksum" d = Some c ->
      c = JStr EmptyString \/ c = JNull ->
      _verify_checksum d = true /\
      _load_data s =
        (Ret d, s, [Debug_loaded (Json.get_default "licensed" (JBool false) d)]))
  /\
  (forall (s : state) (d : dict),
      license_file s = Document (JDict (Json.set "checksum" (JStr EmptyString) d)) ->
      res (_load_data s) = Ret (Json.set "checksum" (JStr EmptyString) d)).
Proof.
  assert (Hfalsy : forall d c, Json.lookup "checksum" d = Some c ->
                     c = JStr EmptyString \/ c = JNull ->
                     _verify_checksum d = true).
  { intros d c Hl Hc. apply verify_falsy. unfold Json.get. rewrite Hl.
    destruct Hc; subst c; reflexivity. }
  split.
  - intros s d c Hf Hl Hc. pose proof (Hfalsy d c Hl Hc) as Hv.
    split; [exact Hv | now apply load_accepts].
  - intros s d Hf.
    rewrite (load_accepts s _ Hf); [reflexivity|].
    apply (Hfalsy _ (JStr EmptyString)); [apply lookup_set_eq | now left].
Qed.

(** ** Activation engine *)
Section EngineFacts.

Lemma save_keeps_other_fields (io : save_io) (s : state) :
  Json.without "checksum" (data (st (_save_data io s))) =
  Json.without "checksum" (data s).
Proof.
  destruct io; cbn [_save_data st fst snd data with_data with_license_file];
    try reflexivity; apply without_set.
Qed.

Lemma save_failure_logged (io : save_io) (s : state) :
  io <> SaveOk -> logged (_save_data io s) = [Error_save_failed].
Proof. destruct io; [congruence | reflexivity ..]. Qed.

Lemma save_failure_file (io : save_io) (s : state) :
  io <> SaveOk ->
  license_file (st (_save_data io s)) = license_file s \/
  license_file (st (_save_data io s)) = Malformed.
Proof. destruct io; [congruence | left | left | right]; reflexivity. Qed.

End EngineFacts.

(** C8. [revoke_license] never raises and leaves the default Unlicensed
    record in memory, the first time and the second; a second call
    under the same file-system behaviour leaves the state the first call
    produced. *)
Theorem C8_revoke_is_idempotent :
  forall (s : state) (io1 io2 : save_io),
    let first := revoke_license io1 s in
    let second := revoke_license io2 (st first) in
    res first = Ret tt /\
    res second = Ret tt /\
    is_default_record (data (st first)) /\
    is_default_record (data (st second)) /\
    st (revoke_license io1 (st first)) = st first.
Proof.
  intros s io1 io2 first second. subst first second.
  unfold is_default_record, stamped_default.
  destruct io1, io2; cbn;
    (repeat split; try reflexivity; (left; reflexivity) || (right; reflexivity)).
Qed.

Section ActivationDateFacts.
Variable datetime : Type.
Variable fromisoformat : string -> option datetime.

(** The date is [None] when the field is unset (absent, null or any
    other falsy value) or a string [fromisoformat] rejects. *)
Lemma activation_date_none (s : state) :
  Json.truthy (Json.get "activated_at" (data s)) = false \/
  (exists text, Json.get "activated_at" (data s) = JStr text /\
                fromisoformat text = None) ->
  get_activation_date datetime fromisoformat s = (Ret None, s, []).
Proof.
  intros [Hfalsy | (text & Hget & Hparse)]; unfold get_activation_date.
  - now rewrite Hfalsy.
  - rewrite Hget. cbn [Json.truthy].
    destruct (negb (String.eqb text EmptyString)); [now rewrite Hparse | reflexivity].
Qed.

(** With a string in the field nothing is raised. *)
Lemma activation_date_of_string (s : state) (text : string) :
  Json.get "activated_at" (data s) = JStr text ->
  exists d, get_activation_date datetime fromisoformat s = (Ret d, s, []).
Proof.
  intros Hget. unfold get_activation_date. rewrite Hget. cbn [Json.truthy].
  destruct (negb (String.eqb text EmptyString)); [|now exists None].
  destruct (fromisoformat text) as [d|]; [now exists (Some d) | now exists None].
Qed.

End ActivationDateFacts.

(** C9, on a legacy record whose [activated_at] is a number.  The file
    has no checksum, so the manager starts with the record as stored;
    the field is truthy and not a string, [fromisoformat] raises
    [TypeError], and [get_activation_date] lets it through. *)
Theorem C9_numeric_activated_at_raises :
  forall (datetime : Type) (fromisoformat : string -> option datetime),
    let started := State Samples.legacy_numeric_date None
                         (Document (JDict Samples.legacy_numeric_date)) None in
    __init__ (Document (JDict Samples.legacy_numeric_date)) None
      = (Ret started, [Debug_loaded (JBool true)]) /\
    get_activation_date datetime fromisoformat started = (Raise TypeError, started, []).
Proof. intros datetime fromisoformat started. split; reflexivity. Qed.

(** ** Activation engine: what each operation leaves behind *)

(** X2. [activate_with_stripe] and [activate_with_promo] return True
    from any state and whatever the save does; the record they leave is
    the new one as a whole, nothing of the previous record remains, and
    [is_licensed], [get_license_type] and [get_license_info] report it. *)
Theorem X2_stripe_and_promo_replace_the_record :
  forall (now : string) (io : save_io) (session_id : string)
         (payment_intent email : option string) (promo_code : string) (s : state),
    let paid := activate_with_stripe now io session_id payment_intent email s in
    let promo := activate_with_promo now io session_id promo_code email s in
    (res paid = Ret true /\
     Json.without "checksum" (data (st paid)) =
       [ ("licensed", JBool true); ("license_type", JStr "stripe_payment");
         ("stripe_session_id", JStr session_id);
         ("stripe_payment_intent", opt_str payment_intent);
         ("license_key", JNull); ("activated_at", JStr now);
         ("email", opt_str email) ] /\
     res (is_licensed (st paid)) = Ret (JBool true) /\
     res (get_license_type (st paid)) = Ret (JStr "stripe_payment") /\
     res (get_license_info (st paid)) =
       Ret [ ("licensed", JBool true); ("type", JStr "stripe_payment");
             ("activated_at", JStr now); ("email", opt_str email) ]) /\
    (res promo = Ret true /\
     Json.without "checksum" (data (st promo)) =
       [ ("licensed", JBool true); ("license_type", JStr "promo_code");
         ("stripe_session_id", JStr session_id);
         ("stripe_payment_intent", JNull);
         ("license_key", JStr promo_code); ("activated_at", JStr now);
         ("email", opt_str email) ] /\
     res (is_licensed (st promo)) = Ret (JBool true) /\
     res (get_license_type (st promo)) = Ret (JStr "promo_code") /\
     res (get_license_info (st promo)) =
       Ret [ ("licensed", JBool true); ("type", JStr "promo_code");
             ("activated_at", JStr now); ("email", opt_str email) ]).
Proof.
  intros now io session_id payment_intent email promo_code s paid promo.
  subst paid promo. destruct io; repeat split; reflexivity.
Qed.

Lemma save_frame (io : save_io) (s : state) :
  _license_keys_cache (st (_save_data io s)) = _license_keys_cache s /\
  license_keys_file (st (_save_data io s)) = license_keys_file s.
Proof. destruct io; split; reflexivity. Qed.

Lemma save_with_data_frame (io : save_io) (d : dict) (s : state) :
  _license_keys_cache (st (_save_data io (with_data d s))) = _license_keys_cache s /\
  license_keys_file (st (_save_data io (with_data d s))) = license_keys_file s.
Proof. destruct io; split; reflexivity. Qed.

Lemma stripe_state (now : string) (io : save_io) (session_id : string)
      (payment_intent email : option string) (s : state) :
  st (activate_with_stripe now io session_id payment_intent email s) =
  st (_save_data io (with_data
        [ ("licensed", JBool true); ("license_type", JStr "stripe_payment");
          ("stripe_session_id", JStr session_id);
          ("stripe_payment_intent", opt_str payment_intent);
          ("license_key", JNull); ("activated_at", JStr now);
          ("email", opt_str email); ("checksum", JNull) ] s)).
Proof. destruct io; reflexivity. Qed.

Lemma promo_state (now : string) (io : save_io) (session_id promo_code : string)
      (email : option string) (s : state) :
  st (activate_with_promo now io session_id promo_code email s) =
  st (_save_data io (with_data
        [ ("licensed", JBool true); ("license_type", JStr "promo_code");
          ("stripe_session_id", JStr session_id);
          ("stripe_payment_intent", JNull);
          ("license_key", JStr promo_code); ("activated_at", JStr now);
          ("email", opt_str email); ("checksum", JNull) ] s)).
Proof. destruct io; reflexivity. Qed.

Lemma revoke_state (io : save_io) (s : state) :
  st (revoke_license io s) = st (_save_data io (with_data _default_data s)).
Proof. destruct io; reflexivity. Qed.

(** X12. After [revoke_license], whatever the save does, the queries
    report an unlicensed installation with no type, date or email, and
    the key cache and the key file are as before. *)
Theorem X12_revoke_reports_unlicensed :
  forall (io : save_io) (s : state),
    let out := st (revoke_license io s) in
    res (is_licensed out) = Ret (JBool false) /\
    res (get_license_type out) = Ret JNull /\
    res (get_license_info out) =
      Ret [ ("licensed", JBool false); ("type", JNull);
            ("activated_at", JNull); ("email", JNull) ] /\
    Json.without "checksum" (data out) = Json.without "checksum" _default_data /\
    _license_keys_cache out = _license_keys_cache s /\
    license_keys_file out = license_keys_file s.
Proof.
  intros io s out. subst out. rewrite revoke_state.
  destruct io; repeat split; reflexivity.
Qed.

(** ** Construction and restart *)

Lemma init_outcome (lf : file) (kf : option file) :
  match lf with
  | Document (JDict d) =>
      __init__ lf kf =
        if _verify_checksum d
        then (Ret (State d None lf kf),
              [Debug_loaded (Json.get_default "licensed" (JBool false) d)])
        else (Ret (State _default_data None lf kf), [Warning_checksum_mismatch])
  | Document _ => __init__ lf kf = (Raise AttributeError, [])
  | Raising e => __init__ lf kf = (Raise e, [])
  | Missing => __init__ lf kf = (Ret (State _default_data None lf kf), [])
  | _ => __init__ lf kf = (Ret (State _default_data None lf kf), [Warning_load_failed])
  end.
Proof.
  destruct lf as [| | |v|e]; try reflexivity.
  destruct v as [| | | | |d]; try reflexivity.
  unfold __init__, _load_data. cbn [license_file].
  destruct (_verify_checksum d); reflexivity.
Qed.

Lemma init_raises (v : json) (kf : option file) :
  (forall d, v <> JDict d) -> __init__ (Document v) kf = (Raise AttributeError, []).
Proof.
  intros Hv. destruct v as [| | | | |d]; try reflexivity. now destruct (Hv d).
Qed.

(** What a construction that returns has made. *)
Lemma init_returned (lf : file) (kf : option file) (s : state) :
  fst (__init__ lf kf) = Ret s ->
  _license_keys_cache s = None /\
  license_file s = lf /\ license_keys_file s = kf /\
  (data s = _default_data \/ lf = Document (JDict (data s))).
Proof.
  pose proof (init_outcome lf kf) as H.
  destruct lf as [| | |v|e].
  1-3: rewrite H; cbn [fst]; intros Hs; injection Hs as <-; cbn; auto.
  - destruct v as [| | | | |d]; try (rewrite H; discriminate).
    rewrite H. destruct (_verify_checksum d); cbn [fst]; intros Hs;
      injection Hs as <-; cbn; auto.
  - rewrite H. discriminate.
Qed.

Lemma init_returns (lf : file) (kf : option file) :
  lf = Missing \/ lf = Unreadable \/ lf = Malformed \/
  (exists d, lf = Document (JDict d)) ->
  exists s, fst (__init__ lf kf) = Ret s.
Proof.
  intros Hlf. pose proof (init_outcome lf kf) as H.
  destruct Hlf as [-> | [-> | [-> | (d & ->)]]]; rewrite H.
  1-3: eexists; reflexivity.
  destruct (_verify_checksum d); eexists; reflexivity.
Qed.

(** X1. Constructing a manager raises [AttributeError] when
    [json.load] hands back a value that is not a dict, and lets through
    what the read raises past the handler.  On a license file that is
    missing, unreadable, not JSON, or a JSON object it returns, with
    the default record in the first three cases and, for an object,
    with the object if its checksum verifies and the default record if
    not.  Whenever it returns, the manager starts without a key cache
    and with the files as they were; the key file plays no part. *)
Theorem X1_construction_outcomes :
  forall (lf : file) (kf : option file),
    (forall v, lf = Document v -> (forall d, v <> JDict d) ->
               __init__ lf kf = (Raise AttributeError, [])) /\
    (forall e, lf = Raising e -> __init__ lf kf = (Raise e, [])) /\
    (lf = Missing \/ lf = Unreadable \/ lf = Malformed ->
     fst (__init__ lf kf) = Ret (State _default_data None lf kf)) /\
    (forall d, lf = Document (JDict d) ->
               fst (__init__ lf kf) =
                 Ret (State (if _verify_checksum d then d else _default_data)
                            None lf kf)) /\
    (forall s, fst (__init__ lf kf) = Ret s ->
               _license_keys_cache s = None /\
               license_file s = lf /\ license_keys_file s = kf /\
               (data s = _default_data \/ lf = Document (JDict (data s)))).
Proof.
  intros lf kf. pose proof (init_outcome lf kf) as H.
  split; [|split; [|split; [|split]]].
  - intros v -> Hv. now apply init_raises.
  - intros e ->. exact H.
  - intros [-> | [-> | ->]]; now rewrite H.
  - intros d ->. rewrite H. now destruct (_verify_checksum d).
  - apply init_returned.
Qed.

Lemma restart_after_save (s : state) :
  restart (st (_save_data SaveOk s)) =
    (Ret (with_cache None (st (_save_data SaveOk s))),
     [Debug_loaded (Json.get_default "licensed" (JBool false)
                      (data (st (_save_data SaveOk s))))]).
Proof.
  rewrite save_ok. unfold restart.
  cbn [st fst snd license_file license_keys_file with_license_file with_data data].
  pose proof (init_outcome
    (Document (JDict (Json.set "checksum" (JStr (_calculate_checksum (data s))) (data s))))
    (license_keys_file s)) as H.
  cbv beta iota in H. rewrite verify_stamped in H. exact H.
Qed.

Lemma restart_after_failed_save (io : save_io) (s : state) :
  io <> SaveOk ->
  restart (st (_save_data io s)) =
    match io with
    | WriteFails =>
        (Ret (State _default_data None Malformed (license_keys_file s)),
         [Warning_load_failed])
    | _ => restart s
    end.
Proof. destruct io; [congruence | reflexivity ..]. Qed.

(** ** The checksum as a string *)

Lemma hex_digit_lower (x : Z) : lower_hex (Sha256.hex_digit (Z.land x 0xf)) = true.
Proof.
  assert (H : 0 <= Z.land x 0xf < 16).
  { change 0xf with (Z.ones 4). rewrite Z.land_ones by lia.
    apply Z.mod_pos_bound. lia. }
  generalize dependent (Z.land x 0xf). intros d H.
  assert (Hd : d = 0 \/ d = 1 \/ d = 2 \/ d = 3 \/ d = 4 \/ d = 5 \/ d = 6 \/ d = 7 \/
               d = 8 \/ d = 9 \/ d = 10 \/ d = 11 \/ d = 12 \/ d = 13 \/ d = 14 \/
               d = 15) by lia.
  repeat (destruct Hd as [-> | Hd]; [reflexivity|]). now rewrite Hd.
Qed.

Lemma all_chars_app (p : ascii -> bool) (a b : string) :
  all_chars p (a +:+ b) = all_chars p a && all_chars p b.
Proof.
  induction a as [|c a IH]; [reflexivity|].
  rewrite string_app_cons. cbn [all_chars]. now rewrite IH, andb_assoc.
Qed.

Lemma all_chars_hex_of (n : nat) (x : Z) : all_chars lower_hex (Sha256.hex_of n x) = true.
Proof.
  unfold Sha256.hex_of. induction (rev (seq 0 n)) as [|i l IH]; [reflexivity|].
  cbn [map string_of_list_ascii all_chars]. now rewrite hex_digit_lower, IH.
Qed.

Lemma all_chars_hexdigest (msg : list Z) :
  all_chars lower_hex (Sha256.hexdigest msg) = true.
Proof.
  unfold Sha256.hexdigest. cbv zeta. cbn [map String.concat].
  rewrite !all_chars_app, !all_chars_hex_of. reflexivity.
Qed.

Lemma all_chars_prefix (p : ascii -> bool) (n : nat) (s : string) :
  all_chars p s = true -> all_chars p (PyStr.prefix n s) = true.
Proof.
  unfold PyStr.prefix. revert s. induction n as [|n IH]; intros s Hs.
  - now destruct s.
  - destruct s as [|c s]; [reflexivity|]. cbn [String.substring all_chars] in *.
    apply andb_true_iff in Hs as [Hc Hs]. now rewrite Hc, IH.
Qed.

(** X14. The checksum of any record is sixteen lower-case hexadecimal
    characters, hence never empty and never taken for a missing one,
    and it does not depend on the checksum the record carries. *)
Theorem X14_checksum_format :
  forall (d : dict) (v : json),
    String.length (_calculate_checksum d) = 16%nat /\
    all_chars lower_hex (_calculate_checksum d) = true /\
    Json.truthy (JStr (_calculate_checksum d)) = true /\
    _calculate_checksum (Json.set "checksum" v d) = _calculate_checksum d.
Proof.
  intros d v. split; [apply checksum_length|]. split; [|split].
  - unfold _calculate_checksum. cbv zeta.
    apply all_chars_prefix, all_chars_hexdigest.
  - apply checksum_truthy.
  - apply checksum_ignores_stored.
Qed.

(** ** Field order does not matter to the checksum *)

Lemma leb_trans (a b c : string) :
  String.leb a b = true -> String.leb b c = true -> String.leb a c = true.
Proof.
  intros H1 H2. apply Is_true_true. apply Is_true_true in H1, H2.
  exact (transitivity (R := String.le) H1 H2).
Qed.

Lemma leb_false_flip (a b : string) :
  String.leb a b = false -> String.leb b a = true.
Proof. intros H. destruct (String.leb_total a b) as [H'|H']; congruence. Qed.

Section SortedItems.
Context {A : Type}.

Lemma insert_item_perm (x : string * A) (l : list (string * A)) :
  Permutation (Json.insert_item x l) (x :: l).
Proof.
  induction l as [|y l IH]; cbn [Json.insert_item]; [reflexivity|].
  destruct (String.leb (fst x) (fst y)); [reflexivity|].
  rewrite IH. apply perm_swap.
Qed.

Lemma sort_items_perm (l : list (string * A)) : Permutation (Json.sort_items l) l.
Proof.
  unfold Json.sort_items. induction l as [|x l IH]; cbn [fold_right]; [reflexivity|].
  now rewrite insert_item_perm, IH.
Qed.

Lemma insert_item_sorted (x : string * A) (l : list (string * A)) :
  StronglySorted key_le l -> StronglySorted key_le (Json.insert_item x l).
Proof.
  induction 1 as [|y l Hl IH Hy]; cbn [Json.insert_item].
  - constructor; constructor.
  - destruct (String.leb (fst x) (fst y)) eqn:E.
    + constructor; [now constructor|]. constructor; [exact E|].
      rewrite List.Forall_forall in Hy |- *.
      intros z Hz. exact (leb_trans _ _ _ E (Hy z Hz)).
    + constructor; [exact IH|].
      rewrite List.Forall_forall in Hy |- *. intros z Hz.
      apply (Permutation_in _ (insert_item_perm x l)) in Hz as [<- | Hz].
      * now apply leb_false_flip.
      * now apply Hy.
Qed.

Lemma sort_items_sorted (l : list (string * A)) :
  StronglySorted key_le (Json.sort_items l).
Proof.
  unfold Json.sort_items. induction l as [|x l IH]; cbn [fold_right].
  - constructor.
  - now apply insert_item_sorted.
Qed.

Lemma sorted_perm_eq (l1 l2 : list (string * A)) :
  StronglySorted key_le l1 -> StronglySorted key_le l2 ->
  Permutation l1 l2 -> List.NoDup (map fst l1) -> l1 = l2.
Proof.
  intros H1. revert l2. induction H1 as [|a l1 Hl1 IH Ha]; intros l2 H2 Hp Hnd.
  - apply Permutation_nil in Hp. now subst.
  - destruct H2 as [|b l2 Hl2 Hb].
    + apply Permutation_sym, Permutation_nil in Hp. discriminate Hp.
    + assert (Hab : a = b).
      { assert (Hin_a : In a (b :: l2)) by (eapply Permutation_in; [exact Hp | now left]).
        assert (Hin_b : In b (a :: l1))
          by (eapply Permutation_in; [symmetry; exact Hp | now left]).
        destruct Hin_a as [Hba | Hin_a]; [now symmetry|].
        destruct Hin_b as [Hab | Hin_b]; [exact Hab|].
        exfalso.
        rewrite List.Forall_forall in Ha, Hb.
        assert (Hk : fst a = fst b)
          by (apply String.leb_antisym; [apply (Ha b Hin_b) | apply (Hb a Hin_a)]).
        cbn [map] in Hnd. apply NoDup_cons_iff in Hnd as [Hnot _].
        apply Hnot. rewrite Hk. now apply in_map. }
      subst b. f_equal. apply IH; [exact Hl2 | | ].
      * now apply Permutation_cons_inv in Hp.
      * cbn [map] in Hnd. now apply NoDup_cons_iff in Hnd.
Qed.

Lemma sort_items_perm_eq (l1 l2 : list (string * A)) :
  Permutation l1 l2 -> List.NoDup (map fst l1) ->
  Json.sort_items l1 = Json.sort_items l2.
Proof.
  intros Hp Hnd. apply sorted_perm_eq; try apply sort_items_sorted.
  - now rewrite !sort_items_perm.
  - eapply Permutation_NoDup; [|exact Hnd].
    apply Permutation_map. symmetry. apply sort_items_perm.
Qed.

End SortedItems.

Lemma filter_perm {A : Type} (f : A -> bool) (l1 l2 : list A) :
  Permutation l1 l2 -> Permutation (List.filter f l1) (List.filter f l2).
Proof.
  induction 1 as [|x l1 l2 _ IH|x y l|l1 l2 l3 _ IH1 _ IH2]; cbn [List.filter].
  - reflexivity.
  - destruct (f x); [now constructor | exact IH].
  - destruct (f x), (f y); try reflexivity. apply perm_swap.
  - now rewrite IH1.
Qed.

Lemma filter_keys_nodup (f : string * json -> bool) (d : dict) :
  List.NoDup (map fst d) -> List.NoDup (map fst (List.filter f d)).
Proof.
  induction d as [|kv d IH]; cbn [List.filter map]; [auto|].
  intros Hnd. apply NoDup_cons_iff in Hnd as [Hnot Hnd].
  destruct (f kv); cbn [map]; [|now apply IH].
  constructor; [|now apply IH].
  intros Hin. apply Hnot. apply in_map_iff in Hin as (x & Hx & Hin).
  apply filter_In in Hin as [Hin _]. rewrite <- Hx. now apply in_map.
Qed.

Lemma dumps_dict_perm (d1 d2 : dict) :
  Permutation d1 d2 -> List.NoDup (map fst d1) ->
  Json.dumps (JDict d1) = Json.dumps (JDict d2).
Proof.
  intros Hp Hnd. cbn [Json.dumps]. f_equal. f_equal. f_equal. f_equal.
  apply sort_items_perm_eq.
  - now apply Permutation_map.
  - rewrite map_map. cbn [fst]. exact Hnd.
Qed.

Lemma checksum_perm (d1 d2 : dict) :
  Permutation d1 d2 -> List.NoDup (map fst d1) ->
  _calculate_checksum d1 = _calculate_checksum d2.
Proof.
  intros Hp Hnd. unfold _calculate_checksum. cbv zeta.
  rewrite (dumps_dict_perm (Json.without "checksum" d1) (Json.without "checksum" d2));
    [reflexivity | now apply filter_perm | now apply filter_keys_nodup].
Qed.

Lemma lookup_in (k : string) (v : json) (d : dict) :
  List.NoDup (map fst d) -> In (k, v) d -> Json.lookup k d = Some v.
Proof.
  induction d as [|[k' v'] d IH]; cbn [map fst Json.lookup]; [intros _ []|].
  intros Hnd Hin. apply NoDup_cons_iff in Hnd as [Hnot Hnd].
  destruct Hin as [[= -> ->] | Hin].
  - now rewrite String.eqb_refl.
  - destruct (String.eqb k k') eqn:E; [|now apply IH].
    apply String.eqb_eq in E. subst k'. exfalso. apply Hnot.
    change k with (fst (k, v)). now apply in_map.
Qed.

Lemma lookup_perm (k : string) (d1 d2 : dict) :
  Permutation d1 d2 -> List.NoDup (map fst d1) ->
  Json.lookup k d1 = Json.lookup k d2.
Proof.
  intros Hp Hnd.
  assert (Hnd2 : List.NoDup (map fst d2))
    by (eapply Permutation_NoDup; [apply Permutation_map; exact Hp | exact Hnd]).
  destruct (Json.lookup k d1) as [v|] eqn:E1.
  - symmetry. apply lookup_in; [exact Hnd2|].
    eapply Permutation_in; [exact Hp|].
    clear -E1. induction d1 as [|[k' v'] d IH]; cbn [Json.lookup] in E1; [discriminate|].
    destruct (String.eqb k k') eqn:E.
    + apply String.eqb_eq in E. injection E1 as ->. subst. now left.
    + right. now apply IH.
  - destruct (Json.lookup k d2) as [v|] eqn:E2; [|reflexivity].
    assert (Hin : In (k, v) d1).
    { eapply Permutation_in; [symmetry; exact Hp|].
      clear -E2. induction d2 as [|[k' v'] d IH]; cbn [Json.lookup] in E2; [discriminate|].
      destruct (String.eqb k k') eqn:E.
      + apply String.eqb_eq in E. injection E2 as ->. subst. now left.
      + right. now apply IH. }
    rewrite (lookup_in k v d1 Hnd Hin) in E1. discriminate E1.
Qed.

(** X15. The order of the fields does not matter: two records with
    the same items (and no key twice) have the same checksum and verify
    alike, so a license file whose fields were reordered is loaded as
    the record itself would be. *)
Theorem X15_field_order_is_irrelevant :
  forall (d1 d2 : dict),
    Permutation d1 d2 ->
    List.NoDup (map fst d1) ->
    _calculate_checksum d1 = _calculate_checksum d2 /\
    _verify_checksum d1 = _verify_checksum d2 /\
    forall s, license_file s = Document (JDict d2) ->
              res (_load_data s) =
                Ret (if _verify_checksum d1 then d2 else _default_data).
Proof.
  intros d1 d2 Hp Hnd.
  assert (Hc : _calculate_checksum d1 = _calculate_checksum d2)
    by now apply checksum_perm.
  assert (Hv : _verify_checksum d1 = _verify_checksum d2).
  { unfold _verify_checksum, Json.get.
    now rewrite (lookup_perm "checksum" d1 d2 Hp Hnd), Hc. }
  split; [exact Hc|]. split; [exact Hv|].
  intros s Hf. rewrite Hv. destruct (_verify_checksum d2) eqn:E.
  - now rewrite (load_accepts s d2 Hf E).
  - now rewrite (load_rejects s d2 Hf E).
Qed.

(** ** Fields taken out of, or put into, a saved file *)

Lemma item_text_length (kt : string * string) : (4 <= String.length (Json.item_text kt))%nat.
Proof.
  unfold Json.item_text, Json.encode_basestring_ascii, Json.quote.
  rewrite !length_string_app. cbn [String.length]. lia.
Qed.

Lemma weight_perm (l1 l2 : list (string * string)) :
  Permutation l1 l2 -> weight l1 = weight l2.
Proof.
  intros Hp.
  induction Hp as [|x l1 l2 _ IH|x y l|l1 l2 l3 _ IH1 _ IH2]; cbn [weight]; lia.
Qed.

Lemma concat_cons2 (sep x y : string) (l : list string) :
  String.concat sep (x :: y :: l) = x +:+ sep +:+ String.concat sep (y :: l).
Proof. reflexivity. Qed.

Lemma concat_length (items : list (string * string)) :
  (String.length (String.concat ", " (map Json.item_text items)) + 2 =
   Nat.max 2 (weight items))%nat.
Proof.
  induction items as [|x items IH]; [reflexivity|].
  destruct items as [|y items].
  - cbn [map String.concat weight]. lia.
  - cbn [map] in *. rewrite concat_cons2, !length_string_app.
    cbn [weight] in *. cbn [String.length]. lia.
Qed.

Lemma dumps_dict_length (d : dict) :
  String.length (Json.dumps (JDict d)) =
  Nat.max 2 (weight (map (fun kv => (fst kv, Json.dumps (snd kv))) d)).
Proof.
  cbn [Json.dumps]. rewrite !length_string_app.
  rewrite <- (weight_perm _ _ (sort_items_perm _)).
  rewrite <- concat_length. cbn [String.length]. lia.
Qed.

Lemma weight_app (l1 l2 : list (string * string)) :
  weight (l1 ++ l2) = (weight l1 + weight l2)%nat.
Proof. induction l1 as [|x l1 IH]; cbn [app weight]; lia. Qed.

(** Taking an entry out makes the text shorter. *)
Lemma without_shrinks_text (k : string) (old : json) (d : dict) :
  Json.lookup k d = Some old ->
  (String.length (Json.dumps (JDict (Json.without k d))) <
   String.length (Json.dumps (JDict d)))%nat.
Proof.
  intros Hl. rewrite !dumps_dict_length. fold (rendered (Json.without k d)) (rendered d).
  assert (H : (weight (rendered (Json.without k d)) + 6 <= weight (rendered d))%nat).
  { revert old Hl. unfold Json.without, rendered.
    induction d as [|[k' v'] d IH]; intros old Hl;
      cbn [Json.lookup List.filter fst] in *; [discriminate|].
    rewrite (String.eqb_sym k' k).
    destruct (String.eqb k k') eqn:E; cbn [negb map weight].
    - clear IH Hl.
      assert (Hle : (weight (map (fun kv => (fst kv, Json.dumps (snd kv)))
                              (List.filter (fun kv => negb (String.eqb (fst kv) k)) d))
                     <= weight (map (fun kv => (fst kv, Json.dumps (snd kv))) d))%nat).
      { induction d as [|kv d IHd]; cbn [List.filter map weight]; [lia|].
        destruct (negb (String.eqb (fst kv) k)); cbn [map weight]; lia. }
      pose proof (item_text_length (fst (k', v'), Json.dumps (snd (k', v')))). lia.
    - specialize (IH old Hl). lia. }
  lia.
Qed.

Lemma without_absent (k : string) (d : dict) :
  Json.lookup k d = None -> Json.without k d = d.
Proof.
  unfold Json.without. induction d as [|[k' v'] d IH]; cbn [Json.lookup List.filter fst];
    [reflexivity|].
  rewrite (String.eqb_sym k' k). destruct (String.eqb k k'); [discriminate|].
  intros H. cbn [negb]. now rewrite IH.
Qed.

Lemma without_comm (a b : string) (d : dict) :
  Json.without a (Json.without b d) = Json.without b (Json.without a d).
Proof.
  unfold Json.without. induction d as [|kv d IH]; cbn [List.filter]; [reflexivity|].
  destruct (negb (String.eqb (fst kv) a)) eqn:Ea,
           (negb (String.eqb (fst kv) b)) eqn:Eb;
    cbn [List.filter]; rewrite ?Ea, ?Eb, IH; reflexivity.
Qed.

Lemma lookup_without_ne (k key : string) (d : dict) :
  k <> key -> Json.lookup k (Json.without key d) = Json.lookup k d.
Proof.
  intros Hne. unfold Json.without.
  induction d as [|[k' v'] d IH]; cbn [List.filter Json.lookup fst]; [reflexivity|].
  destruct (String.eqb k' key) eqn:E; cbn [negb Json.lookup].
  - apply String.eqb_eq in E. subst k'.
    apply String.eqb_neq in Hne. now rewrite Hne.
  - destruct (String.eqb k k'); [reflexivity | exact IH].
Qed.

Lemma text_length_differs (a b : string) :
  (String.length a < String.length b)%nat -> a <> b.
Proof. intros Hlt ->. lia. Qed.

Lemma removal_changes_text (k : string) (old : json) (d : dict) :
  k <> "checksum" ->
  Json.lookup k d = Some old ->
  canonical_text (Json.without k d) <> canonical_text d.
Proof.
  intros Hk Hl. unfold canonical_text. rewrite without_comm.
  apply text_length_differs, (without_shrinks_text k old).
  now rewrite lookup_without_ne.
Qed.

Lemma addition_changes_text (k : string) (v : json) (d : dict) :
  k <> "checksum" ->
  Json.lookup k d = None ->
  canonical_text (Json.set k v d) <> canonical_text d.
Proof.
  intros Hk Hl Heq. symmetry in Heq. revert Heq.
  unfold canonical_text. rewrite (without_set_ne "checksum" k) by exact Hk.
  set (d' := Json.without "checksum" d).
  assert (Hl' : Json.lookup k d' = None)
    by (subst d'; now rewrite lookup_without_ne).
  rewrite <- (without_absent k d' Hl') at 1.
  rewrite <- (without_set k v d').
  apply text_length_differs, (without_shrinks_text k v), lookup_set_eq.
Qed.

Lemma edited_file_rejected (s s' : state) (saved edited : dict) :
  license_file (st (_save_data SaveOk s)) = Document (JDict saved) ->
  license_file s' = Document (JDict edited) ->
  Json.get "checksum" edited = Json.get "checksum" saved ->
  canonical_text edited <> canonical_text saved ->
  no_collision (canonical_text edited) (canonical_text saved) ->
  _load_data s' = (Ret _default_data, s', [Warning_checksum_mismatch]).
Proof.
  intros Hsaved Hf Hsum Htext Hhash.
  rewrite save_ok in Hsaved.
  cbn [st fst snd with_license_file with_data license_file] in Hsaved.
  apply Document_JDict_inj in Hsaved.
  assert (Hstored : Json.get "checksum" edited = JStr (_calculate_checksum saved)).
  { rewrite Hsum. subst saved. now rewrite get_set_eq, checksum_ignores_stored. }
  apply (load_rejects s' edited Hf). apply verify_mismatch.
  - rewrite Hstored. apply checksum_truthy.
  - rewrite Hstored. intros Heq. apply JStr_inj in Heq.
    apply Htext, Hhash. symmetry. exact Heq.
Qed.

(** X18. Once a record is saved, taking a field other than [checksum]
    out of the file, or putting a new field in, makes the next load
    return the default record: the text that is hashed gets shorter or
    longer, and the truncated hash is taken not to collide on the two
    texts at hand. *)
Theorem X18_fields_removed_or_added_are_detected :
  forall (s s' : state) (saved : dict) (k : string),
    license_file (st (_save_data SaveOk s)) = Document (JDict saved) ->
    k <> "checksum" ->
    (forall old,
        Json.lookup k saved = Some old ->
        license_file s' = Document (JDict (Json.without k saved)) ->
        no_collision (canonical_text (Json.without k saved)) (canonical_text saved) ->
        _load_data s' = (Ret _default_data, s', [Warning_checksum_mismatch])) /\
    (forall v,
        Json.lookup k saved = None ->
        license_file s' = Document (JDict (Json.set k v saved)) ->
        no_collision (canonical_text (Json.set k v saved)) (canonical_text saved) ->
        _load_data s' = (Ret _default_data, s', [Warning_checksum_mismatch])).
Proof.
  intros s s' saved k Hsaved Hk. split.
  - intros old Hl Hf Hhash.
    apply (edited_file_rejected s s' saved _ Hsaved Hf); [| |exact Hhash].
    + unfold Json.get. now rewrite lookup_without_ne by congruence.
    + now apply (removal_changes_text k old).
  - intros v Hl Hf Hhash.
    apply (edited_file_rejected s s' saved _ Hsaved Hf); [| |exact Hhash].
    + now apply get_set_ne.
    + now apply addition_changes_text.
Qed.

(** ** The module-level instance *)

Lemma manager_at_written (p : process) (r : nat) (s1 : state) :
  (r < length (store p))%nat ->
  manager_at
    (Process (<[r := (data s1, _license_keys_cache s1)]> (store p))
             (_license_manager_instance p) (license_file s1) (license_keys_file s1))
    r = Some s1.
Proof.
  intros Hr. unfold manager_at. cbn [store LICENSE_FILE LICENSE_KEYS_FILE].
  rewrite list_lookup_insert_eq by exact Hr. now destruct s1.
Qed.

Lemma manager_at_exists (p : process) (r : nat) :
  (r < length (store p))%nat -> exists s, manager_at p r = Some s.
Proof.
  intros Hr. unfold manager_at.
  destruct (store p !! r) as [o|] eqn:E; [now eexists|].
  apply lookup_ge_None in E. exfalso.
  apply (Nat.lt_irrefl r). eapply Nat.lt_le_trans; eassumption.
Qed.

(** With an instance at hand, [get_license_manager] returns it and
    does nothing else. *)
Lemma get_license_manager_again (p : process) (r : nat) :
  _license_manager_instance p = Some r ->
  get_license_manager p = (Ret r, p, []).
Proof. intros H. unfold get_license_manager. now rewrite H. Qed.

(** Without one it constructs a manager, and keeps it if the
    construction returns. *)
Lemma get_license_manager_first (p : process) :
  _license_manager_instance p = None ->
  get_license_manager p =
    match __init__ (LICENSE_FILE p) (LICENSE_KEYS_FILE p) with
    | (Ret s, l) =>
        (Ret (length (store p)),
         Process (store p ++ [(data s, _license_keys_cache s)])
                 (Some (length (store p))) (LICENSE_FILE p) (LICENSE_KEYS_FILE p),
         l)
    | (Raise e, l) => (Raise e, p, l)
    end.
Proof. intros H. unfold get_license_manager. now rewrite H. Qed.

Lemma manager_at_new (p : process) (s : state) :
  license_file s = LICENSE_FILE p ->
  license_keys_file s = LICENSE_KEYS_FILE p ->
  manager_at
    (Process (store p ++ [(data s, _license_keys_cache s)])
             (Some (length (store p))) (LICENSE_FILE p) (LICENSE_KEYS_FILE p))
    (length (store p)) = Some s.
Proof.
  intros Hf Hk. unfold manager_at. cbn [store LICENSE_FILE LICENSE_KEYS_FILE].
  rewrite lookup_app_r by reflexivity. rewrite Nat.sub_diag.
  cbn [lookup list_lookup fst snd].
  rewrite <- Hf, <- Hk. now destruct s.
Qed.

Lemma call_through (A : Type) (m : M A) (p : process) (r : nat) (s : state) :
  manager_at p r = Some s ->
  call r m p =
    Some (res (m s),
          Process (<[r := (data (st (m s)), _license_keys_cache (st (m s)))]> (store p))
                  (_license_manager_instance p)
                  (license_file (st (m s))) (license_keys_file (st (m s))),
          logged (m s)).
Proof.
  intros Hs. unfold call. rewrite Hs. now destruct (m s) as [[a s1] l].
Qed.

(** X17. [get_license_manager] keeps nothing when the construction
    raises, so the next call constructs again.  When it returns, it
    returns a reference to an object of the store, the one it has just
    constructed from the two files if there was no instance, and keeps
    it: later calls return the same reference without reading or
    logging anything, whatever has become of the files.  The object is
    shared: what a method called through the reference leaves in it is
    what the manager returned by the next call holds.  After
    [reset_license_manager] the next call constructs a new object, and
    the objects made before are as they were. *)
Theorem X17_global_instance :
  forall (p : process),
    well_formed p ->
    (forall e l,
        _license_manager_instance p = None ->
        __init__ (LICENSE_FILE p) (LICENSE_KEYS_FILE p) = (Raise e, l) ->
        get_license_manager p = (Raise e, p, l)) /\
    (forall r p1 l,
        get_license_manager p = (Ret r, p1, l) ->
        well_formed p1 /\
        _license_manager_instance p1 = Some r /\
        (exists s, manager_at p1 r = Some s /\
                   (_license_manager_instance p = None ->
                    __init__ (LICENSE_FILE p) (LICENSE_KEYS_FILE p) = (Ret s, l))) /\
        (forall lf kf,
            let p2 := Process (store p1) (_license_manager_instance p1) lf kf in
            get_license_manager p2 = (Ret r, p2, [])) /\
        (forall (A : Type) (m : M A) (s : state),
            manager_at p1 r = Some s ->
            exists p2,
              call r m p1 = Some (res (m s), p2, logged (m s)) /\
              well_formed p2 /\
              get_license_manager p2 = (Ret r, p2, []) /\
              manager_at p2 r = Some (st (m s)))) /\
    (well_formed (reset_license_manager p) /\
     store (reset_license_manager p) = store p /\
     forall s l,
       __init__ (LICENSE_FILE p) (LICENSE_KEYS_FILE p) = (Ret s, l) ->
       exists p1,
         get_license_manager (reset_license_manager p)
           = (Ret (length (store p)), p1, l) /\
         manager_at p1 (length (store p)) = Some s /\
         forall r, (r < length (store p))%nat -> manager_at p1 r = manager_at p r).
Proof.
  intros p Hwf. split; [|split].
  - intros e l Hnone Hinit. rewrite (get_license_manager_first p Hnone).
    now rewrite Hinit.
  - intros r p1 l Hget.
    assert (Hp1 : _license_manager_instance p1 = Some r /\
                  (r < length (store p1))%nat /\
                  exists s, manager_at p1 r = Some s /\
                    (_license_manager_instance p = None ->
                     __init__ (LICENSE_FILE p) (LICENSE_KEYS_FILE p) = (Ret s, l))).
    { destruct (_license_manager_instance p) as [r0|] eqn:Hinst.
      - rewrite (get_license_manager_again p r0 Hinst) in Hget.
        injection Hget as <- <- <-.
        split; [exact Hinst|]. split; [now apply Hwf|].
        destruct (manager_at_exists p r0 (Hwf r0 Hinst)) as [s Hs].
        exists s. split; [exact Hs | discriminate].
      - rewrite (get_license_manager_first p Hinst) in Hget.
        destruct (__init__ (LICENSE_FILE p) (LICENSE_KEYS_FILE p))
          as [[s|e] l0] eqn:Hinit; [|discriminate Hget].
        injection Hget as <- <- <-.
        split; [reflexivity|]. split.
        + cbn [store]. rewrite length_app. cbn [length]. lia.
        + exists s. split; [|reflexivity].
          destruct (init_returned (LICENSE_FILE p) (LICENSE_KEYS_FILE p) s)
            as (_ & Hf & Hk & _).
          { now rewrite Hinit. }
          now apply manager_at_new. }
    destruct Hp1 as (Hinst1 & Hr & Hs).
    split; [intros r' Hr'; rewrite Hinst1 in Hr'; now injection Hr' as <-|].
    split; [exact Hinst1|]. split; [exact Hs|]. split.
    + intros lf kf p2. subst p2. apply get_license_manager_again. exact Hinst1.
    + intros A m s Hat. eexists. split; [now apply call_through|].
      split; [|split].
      * intros r' Hr'. cbn [_license_manager_instance store] in *.
        rewrite length_insert. rewrite Hinst1 in Hr'. now injection Hr' as <-.
      * apply get_license_manager_again. exact Hinst1.
      * now apply manager_at_written.
  - split; [intros r Hr; discriminate Hr|]. split; [reflexivity|].
    intros s l Hinit.
    rewrite (get_license_manager_first (reset_license_manager p) eq_refl).
    cbn [reset_license_manager store LICENSE_FILE LICENSE_KEYS_FILE].
    rewrite Hinit. eexists. split; [reflexivity|].
    destruct (init_returned (LICENSE_FILE p) (LICENSE_KEYS_FILE p) s)
      as (_ & Hf & Hk & _).
    { now rewrite Hinit. }
    split; [now apply manager_at_new|].
    intros r Hr. unfold manager_at. cbn [store LICENSE_FILE LICENSE_KEYS_FILE].
    now rewrite lookup_app_l by exact Hr.
Qed.

(** ** Trimming *)

Lemma rev_app_spec (s t : string) : String.rev_app s t = String.rev s +:+ t.
Proof.
  revert t. induction s as [|a s IH]; intros t; [reflexivity|].
  unfold String.rev. cbn [String.rev_app].
  rewrite (IH (String a t)), (IH (String a EmptyString)).
  now rewrite string_app_assoc, string_app_cons, string_app_nil_l.
Qed.

Lemma rev_cons (a : ascii) (s : string) :
  String.rev (String a s) = String.rev s +:+ String a EmptyString.
Proof. unfold String.rev at 1. cbn [String.rev_app]. apply rev_app_spec. Qed.

Lemma lstrip_snoc (s : string) (c : ascii) :
  PyStr.lstrip (s +:+ String c EmptyString) =
  match PyStr.lstrip s with
  | EmptyString => if PyStr.is_space c then EmptyString else String c EmptyString
  | r => r +:+ String c EmptyString
  end.
Proof.
  induction s as [|a s IH].
  - rewrite string_app_nil_l. cbn [PyStr.lstrip]. now destruct (PyStr.is_space c).
  - rewrite string_app_cons. cbn [PyStr.lstrip].
    destruct (PyStr.is_space a); [exact IH|]. now rewrite string_app_cons.
Qed.

Lemma rev_snoc (s : string) (c : ascii) :
  String.rev (s +:+ String c EmptyString) = String c (String.rev s).
Proof.
  induction s as [|a s IH]; [reflexivity|].
  rewrite string_app_cons, !rev_cons, IH. now rewrite string_app_cons.
Qed.

(** [rstrip], read from the front. *)
Lemma rstrip_cons (c : ascii) (s : string) :
  PyStr.rstrip (String c s) =
  match PyStr.rstrip s with
  | EmptyString => if PyStr.is_space c then EmptyString else String c EmptyString
  | r => String c r
  end.
Proof.
  unfold PyStr.rstrip. rewrite rev_cons, lstrip_snoc.
  destruct (PyStr.lstrip (String.rev s)) as [|b r].
  - now destruct (PyStr.is_space c).
  - rewrite rev_snoc. cbn [String.rev]. 
    destruct (String.rev (String b r)) eqn:E; [|reflexivity].
    rewrite rev_cons in E. destruct (String.rev r); discriminate E.
Qed.

Lemma rstrip_nil : PyStr.rstrip EmptyString = EmptyString.
Proof. reflexivity. Qed.

Lemma rstrip_idem (s : string) : PyStr.rstrip (PyStr.rstrip s) = PyStr.rstrip s.
Proof.
  induction s as [|c s IH]; [reflexivity|].
  rewrite rstrip_cons. destruct (PyStr.rstrip s) as [|b r] eqn:E.
  - destruct (PyStr.is_space c) eqn:Ec; [reflexivity|].
    rewrite rstrip_cons, rstrip_nil. now rewrite Ec.
  - rewrite rstrip_cons, IH. reflexivity.
Qed.

Lemma lstrip_head (s : string) :
  PyStr.lstrip s = EmptyString \/
  exists c r, PyStr.lstrip s = String c r /\ PyStr.is_space c = false.
Proof.
  induction s as [|c s IH]; cbn [PyStr.lstrip]; [now left|].
  destruct (PyStr.is_space c) eqn:E; [exact IH|]. right. now exists c, s.
Qed.

Lemma lstrip_rstrip_lstrip (s : string) :
  PyStr.lstrip (PyStr.rstrip (PyStr.lstrip s)) = PyStr.rstrip (PyStr.lstrip s).
Proof.
  destruct (lstrip_head s) as [-> | (c & r & -> & Hc)]; [reflexivity|].
  rewrite rstrip_cons.
  destruct (PyStr.rstrip r); rewrite ?Hc; cbn [PyStr.lstrip]; now rewrite Hc.
Qed.

Lemma strip_idem (s : string) : PyStr.strip (PyStr.strip s) = PyStr.strip s.
Proof.
  unfold PyStr.strip. now rewrite lstrip_rstrip_lstrip, rstrip_idem.
Qed.

(** * License keys

    [str.upper] is a parameter from here on: [upper] is any function on
    strings, and every statement of this part is proved for every such
    function, Python's among them.  The methods that normalize a key
    and the notions about keys are written as in the definitions, with
    [upper] understood. *)
Section LicenseKeys.
Variable upper : string -> string.

Abbreviation _hash_key := (LicenseManager._hash_key upper).
Abbreviation add_keys := (LicenseManager.add_keys upper).
Abbreviation fill_cache := (LicenseManager.fill_cache upper).
Abbreviation _load_license_keys := (LicenseManager._load_license_keys upper).
Abbreviation validate_license_key := (LicenseManager.validate_license_key upper).
Abbreviation activate_with_key := (LicenseManager.activate_with_key upper).
Abbreviation normalize := (KeySpec.normalize upper).
Abbreviation keys_normalized := (KeySpec.keys_normalized upper).
Abbreviation reachable := (KeySpec.reachable upper).

(** ** Key validator *)
Section KeyFacts.

(** Loading the keys only touches the cache. *)
Lemma load_keys_frame (s : state) :
  data (st (_load_license_keys s)) = data s /\
  license_file (st (_load_license_keys s)) = license_file s /\
  license_keys_file (st (_load_license_keys s)) = license_keys_file s.
Proof.
  unfold _load_license_keys.
  destruct (_license_keys_cache s) as [cache|]; [now cbn|].
  destruct (license_keys_file s) as [[| | |v|e]|] eqn:Hk; try (now cbn).
  destruct (fill_cache v) as [[u|e] cache]; now cbn.
Qed.

Lemma no_key_list_loads_nothing (s : state) :
  _license_keys_cache s = None ->
  no_key_list (license_keys_file s) ->
  res (_load_license_keys s) = Ret ∅.
Proof.
  intros Hc Hf. unfold _load_license_keys. rewrite Hc.
  destruct Hf as [H|[H|[H|[H|[H|[(d & H & Hl)|[H|[(b & H)|[(z & H)|(t & H)]]]]]]]]];
    rewrite H; try reflexivity.
  unfold fill_cache, Json.contains. rewrite Hl. reflexivity.
Qed.

Lemma activate_with_key_rejected (now : string) (io : save_io) (key : string)
      (s : state) (keys : gset string) :
  res (_load_license_keys s) = Ret keys ->
  normalize key ∉ keys ->
  activate_with_key now io key s =
    (Ret false, st (_load_license_keys s),
     logged (_load_license_keys s) ++ [Warning_invalid_key]).
Proof.
  intros Hres Hnot.
  unfold activate_with_key, validate_license_key, bind, ret, log.
  destruct (_load_license_keys s) as [[r s1] l1].
  cbn [res st logged fst snd] in *. subst r.
  fold (normalize key). rewrite (bool_decide_eq_false_2 _ Hnot).
  cbn [negb app]. now rewrite !app_nil_r.
Qed.

(** Every key fails while the key list is unusable. *)
Lemma fail_closed (now : string) (io : save_io) (key : string) (s : state) :
  _license_keys_cache s = None ->
  no_key_list (license_keys_file s) ->
  res (activate_with_key now io key s) = Ret false.
Proof.
  intros Hc Hf.
  rewrite (activate_with_key_rejected now io key s ∅).
  - reflexivity.
  - now apply no_key_list_loads_nothing.
  - apply not_elem_of_empty.
Qed.

Lemma activate_with_key_accepted (now : string) (io : save_io) (key : string)
      (s : state) (keys : gset string) :
  res (_load_license_keys s) = Ret keys ->
  normalize key ∈ keys ->
  let record :=
    [ ("licensed", JBool true); ("license_type", JStr "license_key");
      ("stripe_session_id", JNull); ("stripe_payment_intent", JNull);
      ("license_key", JStr (normalize key)); ("activated_at", JStr now);
      ("email", JNull); ("checksum", JNull) ] in
  activate_with_key now io key s =
    (Ret true,
     st (_save_data io (with_data record (st (_load_license_keys s)))),
     logged (_load_license_keys s) ++
       logged (_save_data io (with_data record (st (_load_license_keys s)))) ++
       [Info_activated_key]).
Proof.
  intros Hres Hin record.
  unfold activate_with_key, validate_license_key, bind, ret, log, modify,
    LICENSE_TYPE_KEY.
  destruct (_load_license_keys s) as [[r s1] l1].
  cbn [res st logged fst snd] in *. subst r.
  fold (normalize key). rewrite (bool_decide_eq_true_2 _ Hin).
  cbn [negb app]. fold record.
  destruct (_save_data io (with_data record s1)) as [[r2 s2] l2] eqn:E.
  pose proof (save_returns io (with_data record s1)) as Hr. rewrite E in Hr.
  cbn [res fst] in Hr. subst r2. cbn [st logged fst snd].
  now rewrite !app_nil_r.
Qed.

(** [activate_with_key] answers [True] exactly for the keys the loader
    knows. *)
Lemma activate_with_key_true_iff (now : string) (io : save_io) (key : string)
      (s : state) :
  res (activate_with_key now io key s) = Ret true <->
  exists keys, res (_load_license_keys s) = Ret keys /\ normalize key ∈ keys.
Proof.
  split.
  - unfold activate_with_key, validate_license_key, bind, ret, log.
    fold (normalize key).
    destruct (_load_license_keys s) as [[[keys|e] s1] l1]; [|discriminate].
    destruct (bool_decide_reflect (normalize key ∈ keys)) as [Hin|Hout].
    + intros _. now exists keys.
    + discriminate.
  - intros (keys & Hres & Hin).
    now rewrite (activate_with_key_accepted now io key s keys Hres Hin).
Qed.

End KeyFacts.

(** C6. A key whose normalized form is not in the valid key set makes
    [activate_with_key] return [False] (nothing is raised), and the
    entitlement record is untouched, in memory and on disk. *)
Theorem C6_invalid_key_returns_false_state_untouched :
  forall (now : string) (io : save_io) (key : string) (s : state)
         (valid_keys : gset string),
    res (_load_license_keys s) = Ret valid_keys ->
    normalize key ∉ valid_keys ->
    let out := activate_with_key now io key s in
    res out = Ret false /\
    data (st out) = data s /\
    license_file (st out) = license_file s /\
    In Warning_invalid_key (logged out).
Proof.
  intros now io key s valid_keys Hres Hnot out. subst out.
  rewrite (activate_with_key_rejected now io key s valid_keys Hres Hnot).
  cbn [res st logged fst snd].
  destruct (load_keys_frame s) as [Hd [Hf _]].
  repeat split; try assumption.
  apply in_or_app. right. now left.
Qed.

(** C7. Two inputs with the same normalized form (same text after
    trimming and upper-casing) make [activate_with_key] behave the same:
    same result, same state, same log; and when it succeeds the stored
    key is that normalized form. *)
Theorem C7_key_variants_behave_identically :
  forall (now : string) (io : save_io) (key1 key2 : string) (s : state),
    normalize key1 = normalize key2 ->
    activate_with_key now io key1 s = activate_with_key now io key2 s /\
    (res (activate_with_key now io key1 s) = Ret true ->
     Json.get "license_key" (data (st (activate_with_key now io key2 s)))
       = JStr (normalize key1)).
Proof.
  intros now io key1 key2 s Hn.
  assert (Heq : activate_with_key now io key1 s = activate_with_key now io key2 s).
  { unfold activate_with_key, validate_license_key.
    fold (normalize key1) (normalize key2). now rewrite Hn. }
  split; [exact Heq|].
  rewrite <- Heq.
  unfold activate_with_key, validate_license_key, bind, ret, log, modify.
  fold (normalize key1).
  destruct (_load_license_keys s) as [[[keys|e] s1] l1]; [|discriminate].
  destruct (bool_decide (normalize key1 ∈ keys)); cbn [negb]; [|discriminate].
  intros _. destruct io; reflexivity.
Qed.

(** C5, on key files of an unexpected shape.  A [keys] entry that is
    null is not iterable and an entry of the list that is not a string
    has no [strip]: both exceptions escape the handler instead of
    leaving zero keys.  A [keys] entry that is a string is read one
    character at a time, so the file admits the key A. *)
Theorem C5_unexpected_key_file_shapes :
  res (_load_license_keys (Samples.with_keys (JDict [("keys", JNull)])))
    = Raise TypeError /\
  res (_load_license_keys (Samples.with_keys (JList [JInt 1])))
    = Raise AttributeError /\
  res (activate_with_key Samples.clock SaveOk "BD-0000"
         (Samples.with_keys (JList [JInt 1])))
    = Raise AttributeError /\
  res (activate_with_key Samples.clock SaveOk "a"
         (Samples.with_keys (JDict [("keys", JStr "ab")])))
    = Ret true.
Proof.
  split; [reflexivity|]. split; [reflexivity|]. split; [reflexivity|].
  apply activate_with_key_true_iff.
  exists ({[ normalize "b" ]} ∪ ({[ normalize "a" ]} ∪ ∅)).
  split; [reflexivity|].
  apply elem_of_union. right. apply elem_of_union. left.
  now apply elem_of_singleton.
Qed.

(** C2, as the code has it.  When [_save_data] meets an I/O error it
    logs the failure and returns [None] exactly as it does on success:
    no error outcome reaches the caller.  The in-memory record stays
    changed: its checksum is stamped unless the directory could not be
    created, and its other fields are as they were set.  The file is
    left as it was or truncated, by [_save_data] and so by every
    activation.  Every activation returns what it
    returns when the save succeeds: [True] for the Stripe and promo
    paths, and for a key [True] exactly when the key is valid, that is
    when its normalized form is in the set the loader returns.  The
    record an activation leaves is the one it leaves when the save
    succeeds, except that its checksum stays [None] when the directory
    could not be created. *)
Theorem C2_save_failure_is_logged_not_reported :
  forall (io : save_io) (s : state),
    io <> SaveOk ->
    (res (_save_data io s) = res (_save_data SaveOk s) /\
     res (_save_data io s) = Ret tt /\
     logged (_save_data io s) = [Error_save_failed] /\
     (license_file (st (_save_data io s)) = license_file s \/
      license_file (st (_save_data io s)) = Malformed) /\
     Json.without "checksum" (data (st (_save_data io s))) =
       Json.without "checksum" (data s) /\
     (io = MkdirFails -> data (st (_save_data io s)) = data s) /\
     (io <> MkdirFails ->
      data (st (_save_data io s)) =
        Json.set "checksum" (JStr (_calculate_checksum (data s))) (data s)))
    /\
    (forall now session_id payment_intent email,
        let out := activate_with_stripe now io session_id payment_intent email s in
        let ok := activate_with_stripe now SaveOk session_id payment_intent email s in
        res out = Ret true /\
        res ok = Ret true /\
        In Error_save_failed (logged out) /\
        (license_file (st out) = license_file s \/ license_file (st out) = Malformed) /\
        Json.without "checksum" (data (st out)) = Json.without "checksum" (data (st ok)) /\
        (io = MkdirFails -> Json.get "checksum" (data (st out)) = JNull) /\
        (io <> MkdirFails -> data (st out) = data (st ok)))
    /\
    (forall now session_id promo_code email,
        let out := activate_with_promo now io session_id promo_code email s in
        let ok := activate_with_promo now SaveOk session_id promo_code email s in
        res out = Ret true /\
        res ok = Ret true /\
        In Error_save_failed (logged out) /\
        (license_file (st out) = license_file s \/ license_file (st out) = Malformed) /\
        Json.without "checksum" (data (st out)) = Json.without "checksum" (data (st ok)) /\
        (io = MkdirFails -> Json.get "checksum" (data (st out)) = JNull) /\
        (io <> MkdirFails -> data (st out) = data (st ok)))
    /\
    (forall now key,
        let out := activate_with_key now io key s in
        let ok := activate_with_key now SaveOk key s in
        res out = res ok /\
        (res out = Ret true <->
         exists valid_keys,
           res (_load_license_keys s) = Ret valid_keys /\
           normalize key ∈ valid_keys) /\
        (res out = Ret true ->
         In Error_save_failed (logged out) /\
         (license_file (st out) = license_file s \/ license_file (st out) = Malformed) /\
         Json.without "checksum" (data (st out)) = Json.without "checksum" (data (st ok)) /\
         (io = MkdirFails -> Json.get "checksum" (data (st out)) = JNull) /\
         (io <> MkdirFails -> data (st out) = data (st ok)))).
Proof.
  intros io s Hio. split; [|split; [|split]].
  - rewrite !save_returns. split; [reflexivity|]. split; [reflexivity|].
    split; [now apply save_failure_logged|].
    split; [now apply save_failure_file|].
    split; [apply save_keeps_other_fields|].
    split.
    + intros ->. reflexivity.
    + intros Hm. destruct io; [congruence | congruence | reflexivity | reflexivity].
  - intros now session_id payment_intent email out ok. subst out ok.
    destruct io; [congruence | ..];
      (split; [reflexivity|]; split; [reflexivity|]; split; [now left|];
       split; [first [left; reflexivity | right; reflexivity]|];
       split; [reflexivity|];
       split; intros H; first [discriminate H | congruence | reflexivity]).
  - intros now session_id promo_code email out ok. subst out ok.
    destruct io; [congruence | ..];
      (split; [reflexivity|]; split; [reflexivity|]; split; [now left|];
       split; [first [left; reflexivity | right; reflexivity]|];
       split; [reflexivity|];
       split; intros H; first [discriminate H | congruence | reflexivity]).
  - intros now key out ok. subst out ok. split; [|split].
    + unfold activate_with_key, bind.
      destruct (validate_license_key key s) as [[[valid|e] s1] l1]; [|reflexivity].
      destruct valid; cbn [negb]; [|reflexivity].
      destruct io; reflexivity.
    + apply activate_with_key_true_iff.
    + intros Htrue.
      destruct (proj1 (activate_with_key_true_iff now io key s) Htrue)
        as (keys & Hres & Hin).
      rewrite (activate_with_key_accepted now io key s keys Hres Hin).
      rewrite (activate_with_key_accepted now SaveOk key s keys Hres Hin).
      cbn [st logged fst snd].
      split.
      { apply in_or_app. right. apply in_or_app. left.
        rewrite (save_failure_logged io _ Hio). now left. }
      split.
      { destruct (load_keys_frame s) as (_ & Hf & _). rewrite <- Hf.
        destruct io; [congruence | left | left | right]; reflexivity. }
      destruct io; [congruence | ..];
        (split; [reflexivity|];
         split; intros H; first [discriminate H | congruence | reflexivity]).
Qed.

(** ** The key cache *)

(** Whatever a call of the loader does, it leaves a cache behind. *)
Lemma load_keys_sets_cache (s : state) :
  exists cache,
    _license_keys_cache (st (_load_license_keys s)) = Some cache /\
    (forall keys, res (_load_license_keys s) = Ret keys -> keys = cache).
Proof.
  unfold _load_license_keys, LicenseManager._load_license_keys.
  destruct (_license_keys_cache s) as [cache|] eqn:Hc.
  - exists cache. cbn [st res fst snd]. rewrite Hc.
    split; [reflexivity | now intros keys [= ->]].
  - destruct (license_keys_file s) as [[| | |v|e]|];
      try (exists ∅; cbn [st res fst snd with_cache _license_keys_cache];
           split; [reflexivity | try discriminate; now intros keys [= <-]]).
    destruct (fill_cache v) as [[u|e] cache]; exists cache;
      cbn [st res fst snd with_cache _license_keys_cache] in *;
      (split; [reflexivity | try discriminate; try (now intros keys [= <-])]).
Qed.

(** A first call leaves the empty set or what was read off the key
    file. *)
Lemma load_keys_fills_cache (s : state) :
  _license_keys_cache s = None ->
  exists cache,
    _license_keys_cache (st (_load_license_keys s)) = Some cache /\
    (cache = ∅ \/
     exists v, license_keys_file s = Some (Document v) /\ cache = snd (fill_cache v)).
Proof.
  intros Hc. unfold _load_license_keys, LicenseManager._load_license_keys.
  rewrite Hc.
  destruct (license_keys_file s) as [[| | |v|e]|];
    try (exists ∅; cbn [st fst snd with_cache _license_keys_cache];
         split; [reflexivity | now left]).
  destruct (fill_cache v) as [[u|e] cache] eqn:E; exists cache;
    cbn [st fst snd with_cache _license_keys_cache];
    (split; [reflexivity | right; exists v; split; [reflexivity | now rewrite E]]).
Qed.

Lemma load_keys_cached (s : state) (cache : gset string) :
  _license_keys_cache s = Some cache ->
  _load_license_keys s = (Ret cache, s, []).
Proof. intros H. unfold _load_license_keys. now rewrite H. Qed.

Lemma add_keys_strings (ks : list string) (acc : gset string) :
  fst (add_keys (map JStr ks) acc) = Ret tt /\
  forall x, x ∈ snd (add_keys (map JStr ks) acc) <->
            x ∈ acc \/ exists k, In k ks /\ normalize k = x.
Proof.
  revert acc. induction ks as [|k ks IH]; intros acc; cbn [map add_keys fst snd].
  - split; [reflexivity|]. intros x. split; [now left|].
    intros [H|(k & [] & _)]; exact H.
  - destruct (IH ({[ upper (PyStr.strip k) ]} ∪ acc)) as [Hr Hm].
    split; [exact Hr|]. intros x. rewrite Hm, elem_of_union, elem_of_singleton.
    fold (normalize k). split.
    + intros [[->|H]|(k' & Hin & Hk')].
      * right. exists k. split; [now left | reflexivity].
      * now left.
      * right. exists k'. split; [now right | exact Hk'].
    + intros [H|(k' & [->|Hin] & Hk')].
      * left. now right.
      * left. left. now symmetry.
      * right. now exists k'.
Qed.

Lemma fill_cache_key_list (v : json) (ks : list string) :
  lists_keys v ks -> fill_cache v = add_keys (map JStr ks) ∅.
Proof.
  intros [-> | (d & -> & Hl)]; cbn [fill_cache]; [reflexivity|].
  unfold Json.contains, Json.get. now rewrite Hl.
Qed.

(** X6. With a key file in either format, a list of strings bare or
    under [keys] (other entries of the dict do not matter), the loader
    returns without raising exactly the normalized forms of the listed
    keys, and [validate_license_key] answers True exactly for the inputs
    whose normalized form is that of a listed key. *)
Theorem X6_key_list_membership (s : state) (v : json) (ks : list string) (key : string) :
  _license_keys_cache s = None ->
  license_keys_file s = Some (Document v) ->
  lists_keys v ks ->
  (exists cache,
      res (_load_license_keys s) = Ret cache /\
      forall x, x ∈ cache <-> exists k, In k ks /\ normalize k = x) /\
  (res (validate_license_key key s) = Ret true <->
   exists k, In k ks /\ normalize k = normalize key) /\
  (res (validate_license_key key s) = Ret true \/
   res (validate_license_key key s) = Ret false).
Proof.
  intros Hc Hf Hv.
  assert (Hload : exists cache,
            _load_license_keys s =
              (Ret cache, with_cache (Some cache) s, [Debug_keys_loaded (size cache)]) /\
            forall x, x ∈ cache <-> exists k, In k ks /\ normalize k = x).
  { unfold _load_license_keys. rewrite Hc, Hf, (fill_cache_key_list v ks Hv).
    destruct (add_keys_strings ks ∅) as [Hr Hm].
    destruct (add_keys (map JStr ks) ∅) as [r cache]. cbn [fst snd] in *. subst r.
    exists cache. split; [reflexivity|]. intros x. rewrite Hm. split.
    - intros [H|H]; [now apply not_elem_of_empty in H | exact H].
    - intros H. now right. }
  destruct Hload as (cache & Hload & Hm).
  split; [exists cache; now rewrite Hload|].
  unfold validate_license_key, bind, ret. rewrite Hload. cbn [res fst].
  fold (normalize key). rewrite <- Hm.
  destruct (bool_decide_reflect (normalize key ∈ cache)) as [Hin|Hout].
  - split; [tauto | now left].
  - split; [|now right]. split; [discriminate | contradiction].
Qed.

(** ** Activation with a key *)

Lemma key_accepted_facts :
  forall (now : string) (io : save_io) (key : string) (s : state)
         (valid_keys : gset string),
    res (_load_license_keys s) = Ret valid_keys ->
    normalize key ∈ valid_keys ->
    let out := activate_with_key now io key s in
    res out = Ret true /\
    Json.without "checksum" (data (st out)) =
      [ ("licensed", JBool true); ("license_type", JStr "license_key");
        ("stripe_session_id", JNull); ("stripe_payment_intent", JNull);
        ("license_key", JStr (normalize key)); ("activated_at", JStr now);
        ("email", JNull) ] /\
    res (is_licensed (st out)) = Ret (JBool true) /\
    res (get_license_type (st out)) = Ret (JStr "license_key") /\
    res (get_license_info (st out)) =
      Ret [ ("licensed", JBool true); ("type", JStr "license_key");
            ("activated_at", JStr now); ("email", JNull) ] /\
    _license_keys_cache (st out) = Some valid_keys.
Proof.
  intros now io key s valid_keys Hres Hin out. subst out.
  rewrite (activate_with_key_accepted now io key s valid_keys Hres Hin).
  cbn [res st fst snd].
  destruct (load_keys_sets_cache s) as (cache & Hcache & Hsame).
  rewrite <- (Hsame valid_keys Hres) in Hcache.
  destruct (_load_license_keys s) as [[r s1] l1]. cbn [st fst snd] in *.
  destruct io; repeat split; try reflexivity; exact Hcache.
Qed.

(** X3. A key whose normalized form is in the valid key set makes
    [activate_with_key] return True, whatever the save does; the record
    becomes the license-key record holding the normalized key and the
    time of the call, the queries report it, and the key set stays
    cached. *)
Theorem X3_valid_key_activates :
  forall (now : string) (io : save_io) (key : string) (s : state)
         (valid_keys : gset string),
    res (_load_license_keys s) = Ret valid_keys ->
    normalize key ∈ valid_keys ->
    let out := activate_with_key now io key s in
    res out = Ret true /\
    Json.without "checksum" (data (st out)) =
      [ ("licensed", JBool true); ("license_type", JStr "license_key");
        ("stripe_session_id", JNull); ("stripe_payment_intent", JNull);
        ("license_key", JStr (normalize key)); ("activated_at", JStr now);
        ("email", JNull) ] /\
    res (is_licensed (st out)) = Ret (JBool true) /\
    res (get_license_type (st out)) = Ret (JStr "license_key") /\
    res (get_license_info (st out)) =
      Ret [ ("licensed", JBool true); ("type", JStr "license_key");
            ("activated_at", JStr now); ("email", JNull) ] /\
    _license_keys_cache (st out) = Some valid_keys.
Proof. exact key_accepted_facts. Qed.

(** X4. Unless [activate_with_key] returns True, it leaves the record
    and both files as they were: that covers the False answer and the
    exceptions of the key loader alike. *)
Theorem X4_key_not_accepted_leaves_record :
  forall (now : string) (io : save_io) (key : string) (s : state),
    let out := activate_with_key now io key s in
    res out <> Ret true ->
    data (st out) = data s /\
    license_file (st out) = license_file s /\
    license_keys_file (st out) = license_keys_file s.
Proof.
  intros now io key s out Hnot. subst out.
  destruct (load_keys_frame s) as (Hd & Hf & Hk).
  revert Hnot.
  unfold activate_with_key, validate_license_key, bind, ret, log.
  fold (normalize key).
  destruct (_load_license_keys s) as [[[keys|e] s1] l1]; cbn [st fst snd] in *.
  - destruct (bool_decide (normalize key ∈ keys)); cbn [negb].
    + intros Hnot. exfalso. apply Hnot. destruct io; reflexivity.
    + intros _. cbn [st fst snd]. auto.
  - intros _. cbn [st fst snd]. auto.
Qed.

(** X5. After [activate_with_key] has returned True, the key stored
    in the record is the normalized input.  That stored key is itself
    valid, [validate_license_key] accepts it and activating with it
    succeeds again, provided normalizing it once more leaves it as it
    is. *)
Theorem X5_stored_key_validates_again :
  forall (now : string) (io : save_io) (key : string) (s : state),
    let out := activate_with_key now io key s in
    res out = Ret true ->
    Json.get "license_key" (data (st out)) = JStr (normalize key) /\
    (normalize (normalize key) = normalize key ->
     res (validate_license_key (normalize key) (st out)) = Ret true /\
     forall now' io',
       res (activate_with_key now' io' (normalize key) (st out)) = Ret true).
Proof.
  intros now io key s out Htrue.
  destruct (proj1 (activate_with_key_true_iff now io key s) Htrue)
    as (keys & Hres & Hin).
  destruct (key_accepted_facts now io key s keys Hres Hin)
    as (_ & Hdata & _ & _ & _ & Hcache).
  fold out in Hdata, Hcache.
  assert (Hload : res (_load_license_keys (st out)) = Ret keys)
    by now rewrite (load_keys_cached (st out) keys Hcache).
  split.
  - subst out. rewrite (activate_with_key_accepted now io key s keys Hres Hin).
    cbn [st fst snd]. destruct io; reflexivity.
  - intros Hidem. split.
    + unfold validate_license_key, bind, ret.
      rewrite (load_keys_cached (st out) keys Hcache). cbn [res fst].
      fold (normalize (normalize key)). rewrite Hidem.
      now rewrite (bool_decide_eq_true_2 _ Hin).
    + intros now' io'. apply activate_with_key_true_iff.
      exists keys. split; [exact Hload | now rewrite Hidem].
Qed.

(** ** A key activation, the next run and the activation date *)

Lemma key_state (now : string) (io : save_io) (key : string) (s : state) :
  res (activate_with_key now io key s) = Ret true ->
  st (activate_with_key now io key s) =
  st (_save_data io (with_data
        [ ("licensed", JBool true); ("license_type", JStr "license_key");
          ("stripe_session_id", JNull); ("stripe_payment_intent", JNull);
          ("license_key", JStr (normalize key)); ("activated_at", JStr now);
          ("email", JNull); ("checksum", JNull) ]
        (st (_load_license_keys s)))).
Proof.
  intros Htrue.
  destruct (proj1 (activate_with_key_true_iff now io key s) Htrue)
    as (keys & Hres & Hin).
  now rewrite (activate_with_key_accepted now io key s keys Hres Hin).
Qed.

(** X9. After an operation whose save succeeded, a manager constructed
    on the files left behind starts with exactly the record the first
    one holds in memory. *)
Theorem X9_restart_after_save :
  forall (now : string) (session_id promo_code key : string)
         (payment_intent email : option string) (s : state),
    let same (out : state) :=
      fst (restart out) = Ret (with_cache None out) in
    same (st (activate_with_stripe now SaveOk session_id payment_intent email s)) /\
    same (st (activate_with_promo now SaveOk session_id promo_code email s)) /\
    same (st (revoke_license SaveOk s)) /\
    (res (activate_with_key now SaveOk key s) = Ret true ->
     same (st (activate_with_key now SaveOk key s))).
Proof.
  intros now session_id promo_code key payment_intent email s same. subst same.
  cbv beta. split; [|split; [|split]].
  - now rewrite stripe_state, restart_after_save.
  - now rewrite promo_state, restart_after_save.
  - now rewrite revoke_state, restart_after_save.
  - intros Htrue. now rewrite (key_state _ _ _ _ Htrue), restart_after_save.
Qed.

(** X10. After an operation whose save failed, the next run does not
    see it: with the directory or the file impossible to create it
    starts as it would have before the operation (an activation is
    lost, a revocation undone), and with the write failing midway it
    starts from the default record. *)
Theorem X10_restart_after_failed_save :
  forall (io : save_io) (now : string) (session_id promo_code key : string)
         (payment_intent email : option string) (s : state),
    io <> SaveOk ->
    let stale (out : state) :=
      restart out =
        match io with
        | WriteFails =>
            (Ret (State _default_data None Malformed (license_keys_file s)),
             [Warning_load_failed])
        | _ => restart s
        end in
    stale (st (activate_with_stripe now io session_id payment_intent email s)) /\
    stale (st (activate_with_promo now io session_id promo_code email s)) /\
    stale (st (revoke_license io s)) /\
    (res (activate_with_key now io key s) = Ret true ->
     stale (st (activate_with_key now io key s))).
Proof.
  intros io now session_id promo_code key payment_intent email s Hio stale.
  subst stale. cbv beta. split; [|split; [|split]].
  - rewrite stripe_state, (restart_after_failed_save io _ Hio).
    destruct io; reflexivity.
  - rewrite promo_state, (restart_after_failed_save io _ Hio).
    destruct io; reflexivity.
  - rewrite revoke_state, (restart_after_failed_save io _ Hio).
    destruct io; reflexivity.
  - intros Htrue. rewrite (key_state _ _ _ _ Htrue).
    rewrite (restart_after_failed_save io _ Hio).
    destruct (load_keys_frame s) as (_ & Hf & Hk).
    cbn [license_keys_file with_data]. rewrite Hk.
    destruct io; try reflexivity; unfold restart;
      cbn [license_file license_keys_file with_data]; now rewrite Hf, Hk.
Qed.

Section DateAfterOperations.
Variable datetime : Type.
Variable fromisoformat : string -> option datetime.

Lemma activation_date_of (s : state) (now : string) :
  Json.get "activated_at" (data s) = JStr now ->
  get_activation_date datetime fromisoformat s =
    (Ret (if String.eqb now EmptyString then None else fromisoformat now), s, []).
Proof.
  intros Hget. unfold get_activation_date. rewrite Hget. cbn [Json.truthy].
  destruct (String.eqb now EmptyString); cbn [negb]; [reflexivity|].
  now destruct (fromisoformat now).
Qed.

(** X11. On the record an activation leaves, [get_activation_date]
    returns without raising what [fromisoformat] makes of the time of
    the call ([None] if that text is empty or not a timestamp); after
    [revoke_license] it returns [None]. *)
Theorem X11_activation_date_after_operations :
  forall (now : string) (io : save_io) (session_id promo_code key : string)
         (payment_intent email : option string) (s : state),
    let date_is (out : state) (d : option datetime) :=
      get_activation_date datetime fromisoformat out = (Ret d, out, []) in
    let parsed := if String.eqb now EmptyString then None else fromisoformat now in
    date_is (st (activate_with_stripe now io session_id payment_intent email s)) parsed /\
    date_is (st (activate_with_promo now io session_id promo_code email s)) parsed /\
    (res (activate_with_key now io key s) = Ret true ->
     date_is (st (activate_with_key now io key s)) parsed) /\
    date_is (st (revoke_license io s)) None.
Proof.
  intros now io session_id promo_code key payment_intent email s date_is parsed.
  subst date_is parsed. cbv beta. split; [|split; [|split]].
  - apply activation_date_of. rewrite stripe_state. destruct io; reflexivity.
  - apply activation_date_of. rewrite promo_state. destruct io; reflexivity.
  - intros Htrue. apply activation_date_of. rewrite (key_state _ _ _ _ Htrue).
    destruct io; reflexivity.
  - rewrite revoke_state. destruct io; reflexivity.
Qed.

End DateAfterOperations.

(** ** The key file and the cache *)

(** X7. The key file is read at most once per manager.  After a first
    call of the loader, whether it returned or raised, every later call
    returns the set cached then, without raising or logging, whatever
    has become of the files; a first call that returned has returned
    that very set. *)
Theorem X7_key_file_read_once :
  forall (s : state) (lf' : file) (kf' : option file),
    let first := _load_license_keys s in
    let later := State (data (st first)) (_license_keys_cache (st first)) lf' kf' in
    exists cache,
      _load_license_keys later = (Ret cache, later, []) /\
      (forall keys, res first = Ret keys -> keys = cache) /\
      (forall key, res (validate_license_key key later)
                   = Ret (bool_decide (normalize key ∈ cache))).
Proof.
  intros s lf' kf' first later.
  destruct (load_keys_sets_cache s) as (cache & Hcache & Hsame).
  fold first in Hcache, Hsame.
  assert (Hlater : _license_keys_cache later = Some cache) by exact Hcache.
  exists cache. split; [now apply load_keys_cached|]. split; [exact Hsame|].
  intros key. unfold validate_license_key, bind, ret.
  now rewrite (load_keys_cached later cache Hlater).
Qed.

Lemma validate_state (key : string) (s : state) :
  st (validate_license_key key s) = st (_load_license_keys s).
Proof.
  unfold validate_license_key, bind, ret.
  now destruct (_load_license_keys s) as [[[keys|e] s1] l1].
Qed.

Lemma key_cache (now : string) (io : save_io) (key : string) (s : state) :
  _license_keys_cache (st (activate_with_key now io key s)) =
  _license_keys_cache (st (_load_license_keys s)).
Proof.
  unfold activate_with_key, validate_license_key, bind, ret, log, modify.
  destruct (_load_license_keys s) as [[[keys|e] s1] l1]; [|reflexivity].
  destruct (bool_decide (upper (PyStr.strip key) ∈ keys)); cbn [negb];
    [destruct io|]; reflexivity.
Qed.

(** X13. No operation writes the key file, and
    [validate_license_key] changes neither the record nor the license
    file; when the directory or the file cannot be created, the
    activations and the revocation leave the license file as it was. *)
Theorem X13_which_files_are_written :
  forall (io : save_io) (now : string) (session_id promo_code key : string)
         (payment_intent email : option string) (s : state),
    let keeps_key_file (out : state) := license_keys_file out = license_keys_file s in
    let keeps_license_file (out : state) :=
      io = MkdirFails \/ io = OpenFails -> license_file out = license_file s in
    (keeps_key_file (st (activate_with_stripe now io session_id payment_intent email s)) /\
     keeps_key_file (st (activate_with_promo now io session_id promo_code email s)) /\
     keeps_key_file (st (activate_with_key now io key s)) /\
     keeps_key_file (st (revoke_license io s)) /\
     keeps_key_file (st (validate_license_key key s))) /\
    (keeps_license_file (st (activate_with_stripe now io session_id payment_intent email s)) /\
     keeps_license_file (st (activate_with_promo now io session_id promo_code email s)) /\
     keeps_license_file (st (activate_with_key now io key s)) /\
     keeps_license_file (st (revoke_license io s))) /\
    license_file (st (validate_license_key key s)) = license_file s /\
    data (st (validate_license_key key s)) = data s.
Proof.
  intros io now session_id promo_code key payment_intent email s
         keeps_key_file keeps_license_file.
  subst keeps_key_file keeps_license_file. cbv beta.
  destruct (load_keys_frame s) as (Hd & Hf & Hk).
  assert (Hkey : license_keys_file (st (activate_with_key now io key s))
                 = license_keys_file s /\
                 (io = MkdirFails \/ io = OpenFails ->
                  license_file (st (activate_with_key now io key s)) = license_file s)).
  { unfold activate_with_key, validate_license_key, bind, ret, log, modify.
    destruct (_load_license_keys s) as [[[keys|e] s1] l1]; cbn [st fst snd] in *;
      [|now split].
    destruct (bool_decide (upper (PyStr.strip key) ∈ keys)); cbn [negb];
      [|now split].
    split; [destruct io; exact Hk|].
    intros [-> | ->]; exact Hf. }
  rewrite validate_state, stripe_state, promo_state, revoke_state.
  split; [|split; [|split]].
  - repeat split; try apply save_with_data_frame; [apply Hkey | exact Hk].
  - repeat split; try apply Hkey; intros [-> | ->]; reflexivity.
  - exact Hf.
  - exact Hd.
Qed.

(** ** Keys in the cache are in normal form

    For this [upper] has to behave as [str.upper] does in two respects:
    applied twice it gives what it gives applied once, and it neither
    makes nor removes white space at the ends of a text. *)
Section NormalizedKeys.
Hypothesis upper_idempotent : forall s : string, upper (upper s) = upper s.
Hypothesis upper_strip :
  forall s : string, PyStr.strip (upper s) = upper (PyStr.strip s).

Lemma normalize_idem (key : string) : normalize (normalize key) = normalize key.
Proof.
  unfold normalize. now rewrite upper_strip, upper_idempotent, strip_idem.
Qed.

Lemma add_keys_normalized (keys : list json) (acc : gset string) :
  (forall x, x ∈ acc -> normalize x = x) ->
  forall x, x ∈ snd (add_keys keys acc) -> normalize x = x.
Proof.
  revert acc. induction keys as [|v keys IH]; intros acc Hacc;
    cbn [LicenseManager.add_keys snd].
  - exact Hacc.
  - destruct v as [| | |key| |]; cbn [snd]; try exact Hacc.
    apply IH. intros x Hx. apply elem_of_union in Hx as [Hx|Hx].
    + apply elem_of_singleton in Hx. subst x. apply normalize_idem.
    + now apply Hacc.
Qed.

Lemma fill_cache_normalized (v : json) (x : string) :
  x ∈ snd (fill_cache v) -> normalize x = x.
Proof.
  assert (Hempty : forall y : string, y ∈ (∅ : gset string) -> normalize y = y)
    by (intros y Hy; now apply not_elem_of_empty in Hy).
  destruct v as [| | | |keys|d]; cbn [LicenseManager.fill_cache snd];
    try (intros Hx; now apply not_elem_of_empty in Hx).
  - now apply add_keys_normalized.
  - destruct (Json.contains "keys" d); [|intros Hx; now apply not_elem_of_empty in Hx].
    destruct (iterate (Json.get "keys" d)) as [keys|e]; cbn [snd].
    + now apply add_keys_normalized.
    + intros Hx; now apply not_elem_of_empty in Hx.
Qed.

Lemma load_keys_keeps_normalized (s : state) :
  keys_normalized s -> keys_normalized (st (_load_license_keys s)).
Proof.
  intros Hs. destruct (_license_keys_cache s) as [c|] eqn:Hc.
  - now rewrite (load_keys_cached s c Hc).
  - intros cache' Hc'.
    destruct (load_keys_fills_cache s Hc) as (cache & Hcache & Hfrom).
    rewrite Hcache in Hc'. injection Hc' as <-.
    destruct Hfrom as [-> | (v & _ & ->)].
    + intros x Hx. now apply not_elem_of_empty in Hx.
    + apply fill_cache_normalized.
Qed.

(** X8. When [upper] is idempotent and commutes with [strip], each
    cached key is its own normalized form in every state a manager can
    reach: trimmed and upper-cased once more, it is unchanged. *)
Theorem X8_cached_keys_are_normalized :
  forall s, reachable s -> keys_normalized s.
Proof.
  intros s Hs. induction Hs as
    [lf kf s Hinit | s lf kf _ IH | s now io sid pi em _ IH
    | s now io sid pc em _ IH | s now io key _ IH | s key _ IH | s io _ IH].
  - destruct (init_returned lf kf s Hinit) as (Hnone & _).
    intros cache Hc. rewrite Hnone in Hc. discriminate Hc.
  - exact IH.
  - intros cache Hc. apply (IH cache). rewrite <- Hc, stripe_state.
    symmetry. apply save_with_data_frame.
  - intros cache Hc. apply (IH cache). rewrite <- Hc, promo_state.
    symmetry. apply save_with_data_frame.
  - intros cache Hc. rewrite key_cache in Hc.
    now apply (load_keys_keeps_normalized s IH cache).
  - rewrite validate_state. now apply load_keys_keeps_normalized.
  - intros cache Hc. apply (IH cache). rewrite <- Hc, revoke_state.
    symmetry. apply save_with_data_frame.
Qed.

End NormalizedKeys.

(** ** [_hash_key] *)

(** X16. [_hash_key] returns sixty-four lower-case hexadecimal
    characters, the SHA-256 of the UTF-8 bytes of the normalized key.
    So keys with the same normalized form have the same hash, and a
    key and its normalized form have the same hash whenever
    normalizing the normalized form leaves it as it is. *)
Theorem X16_hash_key_of_normalized_form :
  forall (key key' : string),
    String.length (_hash_key key) = 64%nat /\
    all_chars lower_hex (_hash_key key) = true /\
    _hash_key key = Sha256.hexdigest (PyStr.utf8 (normalize key)) /\
    (normalize key = normalize key' -> _hash_key key = _hash_key key') /\
    (normalize (normalize key) = normalize key ->
     _hash_key (normalize key) = _hash_key key).
Proof.
  intros key key'. unfold _hash_key, LicenseManager._hash_key. cbv zeta.
  fold (normalize key) (normalize key') (normalize (normalize key)).
  split; [apply length_hexdigest|].
  split; [apply all_chars_hexdigest|].
  split; [reflexivity|].
  split; intros H; now rewrite H.
Qed.

End LicenseKeys.

(** * The properties at concrete inputs

    The keys of the examples are ASCII text, on which [str.upper] is
    [PyStr.ascii_upper]; the theorems are applied with that function
    for [upper]. *)

(** ** [ascii_upper] is idempotent and commutes with [strip] *)

Lemma is_space_ascii_upper_char (c : ascii) :
  PyStr.is_space (PyStr.ascii_upper_char c) = PyStr.is_space c.
Proof. destruct c as [[] [] [] [] [] [] [] []]; vm_compute; reflexivity. Qed.

Lemma ascii_upper_char_idem (c : ascii) :
  PyStr.ascii_upper_char (PyStr.ascii_upper_char c) = PyStr.ascii_upper_char c.
Proof. destruct c as [[] [] [] [] [] [] [] []]; vm_compute; reflexivity. Qed.

Lemma ascii_upper_idem (s : string) :
  PyStr.ascii_upper (PyStr.ascii_upper s) = PyStr.ascii_upper s.
Proof.
  induction s as [|c s IH]; cbn [PyStr.ascii_upper]; [reflexivity|].
  now rewrite ascii_upper_char_idem, IH.
Qed.

Lemma lstrip_ascii_upper (s : string) :
  PyStr.lstrip (PyStr.ascii_upper s) = PyStr.ascii_upper (PyStr.lstrip s).
Proof.
  induction s as [|c s IH]; cbn [PyStr.ascii_upper PyStr.lstrip]; [reflexivity|].
  rewrite is_space_ascii_upper_char.
  destruct (PyStr.is_space c); [exact IH | reflexivity].
Qed.

Lemma rstrip_ascii_upper (s : string) :
  PyStr.rstrip (PyStr.ascii_upper s) = PyStr.ascii_upper (PyStr.rstrip s).
Proof.
  induction s as [|c s IH]; [reflexivity|].
  cbn [PyStr.ascii_upper]. rewrite !rstrip_cons, IH, is_space_ascii_upper_char.
  destruct (PyStr.rstrip s) as [|b r]; cbn [PyStr.ascii_upper].
  - now destruct (PyStr.is_space c).
  - reflexivity.
Qed.

Lemma strip_ascii_upper (s : string) :
  PyStr.strip (PyStr.ascii_upper s) = PyStr.ascii_upper (PyStr.strip s).
Proof. unfold PyStr.strip. now rewrite lstrip_ascii_upper, rstrip_ascii_upper. Qed.

(** ** The claims *)


Lemma C4_witness :
  Json.lookup "checksum" Samples.legacy_document = None /\
  _load_data (Samples.on_disk Samples.legacy_document) =
    (Ret Samples.legacy_document, Samples.on_disk Samples.legacy_document,
     [Debug_loaded (JBool true)]).
Proof.
  split; [reflexivity|].
  apply (C4_record_without_checksum_loaded_as_is
           (Samples.on_disk Samples.legacy_document) Samples.legacy_document);
    reflexivity.
Defined.

Lemma C10_witness :
  _verify_checksum Samples.blanked_document = true /\
  _load_data (Samples.on_disk Samples.blanked_document) =
    (Ret Samples.blanked_document, Samples.on_disk Samples.blanked_document,
     [Debug_loaded (JBool true)]).
Proof.
  apply (proj1 C10_empty_or_null_checksum_is_trusted
           (Samples.on_disk Samples.blanked_document) Samples.blanked_document
           (JStr EmptyString)).
  - reflexivity.
  - reflexivity.
  - left. reflexivity.
Defined.

Lemma C6_witness :
  let out := activate_with_key PyStr.ascii_upper Samples.clock SaveOk
               "BD-0000-0000-0000-0000" (Samples.with_keys Samples.key_list) in
  res out = Ret false /\
  data (st out) = _default_data /\
  license_file (st out) = Missing /\
  In Warning_invalid_key (logged out).
Proof.
  apply (C6_invalid_key_returns_false_state_untouched PyStr.ascii_upper
           Samples.clock SaveOk "BD-0000-0000-0000-0000"
           (Samples.with_keys Samples.key_list)
           ({[ normalize PyStr.ascii_upper "BD-AAAA-BBBB-CCCC-DDDD" ]} ∪ ∅)).
  - reflexivity.
  - apply (bool_decide_eq_false_1
             (normalize PyStr.ascii_upper "BD-0000-0000-0000-0000"
                ∈ ({[ normalize PyStr.ascii_upper "BD-AAAA-BBBB-CCCC-DDDD" ]} ∪ ∅
                   : gset string))).
    vm_compute. reflexivity.
Defined.

Lemma C7_witness :
  normalize PyStr.ascii_upper " bd-aaaa-bbbb-cccc-dddd " =
  normalize PyStr.ascii_upper "BD-AAAA-BBBB-CCCC-DDDD" /\
  activate_with_key PyStr.ascii_upper Samples.clock SaveOk " bd-aaaa-bbbb-cccc-dddd "
    (Samples.with_keys Samples.key_list) =
  activate_with_key PyStr.ascii_upper Samples.clock SaveOk "BD-AAAA-BBBB-CCCC-DDDD"
    (Samples.with_keys Samples.key_list) /\
  Json.get "license_key"
    (data (st (activate_with_key PyStr.ascii_upper Samples.clock SaveOk
                 "BD-AAAA-BBBB-CCCC-DDDD" (Samples.with_keys Samples.key_list))))
    = JStr (normalize PyStr.ascii_upper " bd-aaaa-bbbb-cccc-dddd ").
Proof.
  assert (H : normalize PyStr.ascii_upper " bd-aaaa-bbbb-cccc-dddd " =
              normalize PyStr.ascii_upper "BD-AAAA-BBBB-CCCC-DDDD")
    by (vm_compute; reflexivity).
  destruct (C7_key_variants_behave_identically PyStr.ascii_upper
              Samples.clock SaveOk " bd-aaaa-bbbb-cccc-dddd "
              "BD-AAAA-BBBB-CCCC-DDDD" (Samples.with_keys Samples.key_list) H)
    as [Hsame Hstored].
  split; [exact H|]. split; [exact Hsame|].
  apply Hstored. vm_compute. reflexivity.
Defined.

(** The scenarios of the specification, run on the model. *)
Example scenario_payment_then_revoke :
  res (is_licensed Samples.fresh) = Ret (JBool false) /\
  res (is_licensed Samples.paid) = Ret (JBool true) /\
  res (get_license_type Samples.paid) = Ret (JStr "stripe_payment") /\
  res (is_licensed (st (revoke_license SaveOk Samples.paid))) = Ret (JBool false).
Proof. vm_compute. repeat split; reflexivity. Qed.

Example scenario_key_file :
  let s := Samples.with_keys Samples.key_list in
  res (activate_with_key PyStr.ascii_upper Samples.clock SaveOk
         "bd-aaaa-bbbb-cccc-dddd" s) = Ret true /\
  res (activate_with_key PyStr.ascii_upper Samples.clock SaveOk
         "BD-0000-0000-0000-0000" s) = Ret false /\
  data (st (activate_with_key PyStr.ascii_upper Samples.clock SaveOk
              "BD-0000-0000-0000-0000" s))
    = _default_data.
Proof. vm_compute. repeat split; reflexivity. Qed.

(** C2, as the spec words it, fails: with the license file impossible
    to open, a Stripe activation on a first run writes nothing, logs the
    error, and still returns [True], the very value it returns when the
    save goes through; [_save_data] itself returns [None] both times. *)
Lemma C2_return_value_hides_save_failure :
  let failed :=
    activate_with_stripe Samples.clock OpenFails "cs_test_123" None None Samples.fresh in
  let succeeded :=
    activate_with_stripe Samples.clock SaveOk "cs_test_123" None None Samples.fresh in
  license_file (st failed) = Missing /\
  license_file (st succeeded) = Document (JDict Samples.paid_document) /\
  logged failed = [Error_save_failed; Info_activated_stripe "cs_test_123"] /\
  res failed = Ret true /\
  res succeeded = Ret true /\
  res (_save_data OpenFails Samples.fresh) = Ret tt /\
  res (_save_data SaveOk Samples.fresh) = Ret tt /\
  ~ reports_save_outcome
      (fun io => activate_with_stripe Samples.clock io "cs_test_123" None None)
      Samples.fresh.
Proof.
  repeat split; try (vm_compute; reflexivity).
  intros H. apply (H OpenFails); [discriminate | reflexivity].
Qed.

(** The same failed save, seen through the theorem: the error is
    logged, the activation answers [True], the record in memory is the
    stamped record of the successful run, and a valid key is still
    accepted. *)
Lemma C2_witness :
  OpenFails <> SaveOk /\
  logged (_save_data OpenFails Samples.fresh) = [Error_save_failed] /\
  res (activate_with_stripe Samples.clock OpenFails "cs_test_123" None None Samples.fresh)
    = Ret true /\
  data (st (activate_with_stripe Samples.clock OpenFails "cs_test_123" None None
              Samples.fresh))
    = Samples.paid_document /\
  res (activate_with_key PyStr.ascii_upper Samples.clock OpenFails
         "bd-aaaa-bbbb-cccc-dddd" (Samples.with_keys Samples.key_list))
    = Ret true.
Proof.
  assert (H : OpenFails <> SaveOk) by discriminate.
  destruct (C2_save_failure_is_logged_not_reported PyStr.ascii_upper
              OpenFails Samples.fresh H)
    as [(_ & _ & Hlog & _) [Hstripe _]].
  destruct (Hstripe Samples.clock "cs_test_123" None None)
    as (Hres & _ & _ & _ & _ & _ & Hdata).
  destruct (C2_save_failure_is_logged_not_reported PyStr.ascii_upper
              OpenFails (Samples.with_keys Samples.key_list) H)
    as (_ & _ & _ & Hkey).
  destruct (Hkey Samples.clock "bd-aaaa-bbbb-cccc-dddd") as (_ & Hiff & _).
  split; [exact H|]. split; [exact Hlog|]. split; [exact Hres|]. split.
  - rewrite Hdata by discriminate. vm_compute. reflexivity.
  - apply Hiff.
    exists ({[ normalize PyStr.ascii_upper "BD-AAAA-BBBB-CCCC-DDDD" ]} ∪ ∅).
    split; [reflexivity|].
    apply (bool_decide_eq_true_1
             (normalize PyStr.ascii_upper "bd-aaaa-bbbb-cccc-dddd"
                ∈ ({[ normalize PyStr.ascii_upper "BD-AAAA-BBBB-CCCC-DDDD" ]} ∪ ∅
                   : gset string))).
    vm_compute. reflexivity.
Defined.

(** ** The further properties *)

(** A license file holding [null] makes the construction raise, and
    so does one whose bytes are not text; a missing one gives the
    default record. *)
Lemma X1_witness :
  __init__ (Document JNull) None = (Raise AttributeError, []) /\
  __init__ (Raising UnicodeDecodeError) None = (Raise UnicodeDecodeError, []) /\
  fst (__init__ Missing None) = Ret (State _default_data None Missing None).
Proof.
  split; [|split].
  - apply (proj1 (X1_construction_outcomes (Document JNull) None) JNull);
      [reflexivity | discriminate].
  - apply (proj1 (proj2 (X1_construction_outcomes (Raising UnicodeDecodeError) None))
             UnicodeDecodeError).
    reflexivity.
  - apply (proj1 (proj2 (proj2 (X1_construction_outcomes Missing None)))).
    left. reflexivity.
Defined.

Lemma X3_witness :
  let out := activate_with_key PyStr.ascii_upper Samples.clock OpenFails
               " bd-aaaa-bbbb-cccc-dddd " Cases.keyed in
  res out = Ret true /\
  Json.get "license_key" (Json.without "checksum" (data (st out)))
    = JStr "BD-AAAA-BBBB-CCCC-DDDD".
Proof.
  destruct (X3_valid_key_activates PyStr.ascii_upper
              Samples.clock OpenFails " bd-aaaa-bbbb-cccc-dddd " Cases.keyed
              ({[ normalize PyStr.ascii_upper "BD-AAAA-BBBB-CCCC-DDDD" ]} ∪ ∅))
    as (Hres & Hdata & _).
  - reflexivity.
  - apply (bool_decide_eq_true_1
             (normalize PyStr.ascii_upper " bd-aaaa-bbbb-cccc-dddd "
                ∈ ({[ normalize PyStr.ascii_upper "BD-AAAA-BBBB-CCCC-DDDD" ]} ∪ ∅
                   : gset string))).
    vm_compute. reflexivity.
  - split; [exact Hres|]. cbv zeta. rewrite Hdata. vm_compute. reflexivity.
Defined.

(** The loader raising on a broken key list leaves the record alone. *)
Lemma X4_witness :
  let out := activate_with_key PyStr.ascii_upper Samples.clock SaveOk "BD-GOOD"
               (Samples.with_keys Cases.broken_key_list) in
  res out = Raise AttributeError /\
  data (st out) = _default_data /\
  license_file (st out) = Missing.
Proof.
  split; [vm_compute; reflexivity|].
  destruct (X4_key_not_accepted_leaves_record PyStr.ascii_upper
              Samples.clock SaveOk "BD-GOOD" (Samples.with_keys Cases.broken_key_list))
    as (Hd & Hf & _).
  - vm_compute. discriminate.
  - split; [exact Hd | exact Hf].
Defined.

Lemma X5_witness :
  let out := activate_with_key PyStr.ascii_upper Samples.clock SaveOk
               " bd-aaaa-bbbb-cccc-dddd " Cases.keyed in
  Json.get "license_key" (data (st out)) = JStr "BD-AAAA-BBBB-CCCC-DDDD" /\
  res (validate_license_key PyStr.ascii_upper "BD-AAAA-BBBB-CCCC-DDDD" (st out))
    = Ret true.
Proof.
  destruct (X5_stored_key_validates_again PyStr.ascii_upper
              Samples.clock SaveOk " bd-aaaa-bbbb-cccc-dddd " Cases.keyed)
    as (Hstored & Hvalid).
  - vm_compute. reflexivity.
  - split; [exact Hstored|]. apply Hvalid. vm_compute. reflexivity.
Defined.

(** A lower-case, padded input against an upper-case key in the file,
    and an upper-case input against a lower-case, padded key. *)
Lemma X6_witness :
  res (validate_license_key PyStr.ascii_upper " bd-aaaa-bbbb-cccc-dddd " Cases.keyed)
    = Ret true /\
  res (validate_license_key PyStr.ascii_upper "BD-AAAA-BBBB-CCCC-DDDD"
         (Samples.with_keys Cases.legacy_key_list))
    = Ret true.
Proof.
  split.
  - destruct (X6_key_list_membership PyStr.ascii_upper Cases.keyed Samples.key_list
                ["BD-AAAA-BBBB-CCCC-DDDD"] " bd-aaaa-bbbb-cccc-dddd ")
      as (_ & Hiff & _).
    + reflexivity.
    + reflexivity.
    + right. exists [("keys", JList [JStr "BD-AAAA-BBBB-CCCC-DDDD"])].
      split; reflexivity.
    + apply Hiff. exists "BD-AAAA-BBBB-CCCC-DDDD".
      split; [now left | vm_compute; reflexivity].
  - destruct (X6_key_list_membership PyStr.ascii_upper
                (Samples.with_keys Cases.legacy_key_list) Cases.legacy_key_list
                ["  bd-aaaa-bbbb-cccc-dddd "] "BD-AAAA-BBBB-CCCC-DDDD")
      as (_ & Hiff & _).
    + reflexivity.
    + reflexivity.
    + left. reflexivity.
    + apply Hiff. exists "  bd-aaaa-bbbb-cccc-dddd ".
      split; [now left | vm_compute; reflexivity].
Defined.

(** A key list that breaks off at its second entry: the first call
    raises, and the calls after it answer from the one key read. *)
Lemma X7_witness :
  res (_load_license_keys PyStr.ascii_upper (Samples.with_keys Cases.broken_key_list))
    = Raise AttributeError /\
  exists cache,
    _load_license_keys PyStr.ascii_upper
      (st (_load_license_keys PyStr.ascii_upper
             (Samples.with_keys Cases.broken_key_list))) =
    (Ret cache,
     st (_load_license_keys PyStr.ascii_upper (Samples.with_keys Cases.broken_key_list)),
     []).
Proof.
  split; [vm_compute; reflexivity|].
  destruct (X7_key_file_read_once PyStr.ascii_upper
              (Samples.with_keys Cases.broken_key_list)
              Missing (Some (Document Cases.broken_key_list)))
    as (cache & Hload & _).
  exists cache. exact Hload.
Defined.

Example key_accepted_after_failed_read :
  let s := Samples.with_keys Cases.broken_key_list in
  res (activate_with_key PyStr.ascii_upper Samples.clock SaveOk "bd-good" s)
    = Raise AttributeError /\
  res (activate_with_key PyStr.ascii_upper Samples.clock SaveOk "bd-good"
         (st (activate_with_key PyStr.ascii_upper Samples.clock SaveOk "bd-good" s)))
    = Ret true.
Proof. vm_compute. split; reflexivity. Qed.

Lemma X8_witness :
  keys_normalized PyStr.ascii_upper
    (st (activate_with_key PyStr.ascii_upper Samples.clock SaveOk
           "bd-aaaa-bbbb-cccc-dddd" Cases.keyed)).
Proof.
  apply (X8_cached_keys_are_normalized PyStr.ascii_upper
           ascii_upper_idem strip_ascii_upper).
  apply reach_key.
  apply (reach_init PyStr.ascii_upper Missing (Some (Document Samples.key_list))).
  reflexivity.
Defined.

Lemma X9_witness :
  let out := st (activate_with_key PyStr.ascii_upper Samples.clock SaveOk
                   "bd-aaaa-bbbb-cccc-dddd" Cases.keyed) in
  fst (restart out) = Ret (with_cache None out).
Proof.
  apply (proj2 (proj2 (proj2
           (X9_restart_after_save PyStr.ascii_upper Samples.clock "cs_test_123"
              "PROMO" "bd-aaaa-bbbb-cccc-dddd" None None Cases.keyed)))).
  vm_compute. reflexivity.
Defined.

(** A revocation whose save fails is undone by the next run. *)
Lemma X10_witness :
  restart (st (revoke_license OpenFails Cases.licensed)) = restart Cases.licensed /\
  res (is_licensed (st (revoke_license OpenFails Cases.licensed))) = Ret (JBool false).
Proof.
  split; [|vm_compute; reflexivity].
  assert (H : OpenFails <> SaveOk) by discriminate.
  exact (proj1 (proj2 (proj2
           (X10_restart_after_failed_save PyStr.ascii_upper OpenFails Samples.clock
              "cs_test_123" "PROMO" "BD-0000" None None Cases.licensed H)))).
Defined.

Lemma X11_witness :
  let out := st (activate_with_key PyStr.ascii_upper Samples.clock SaveOk
                   "bd-aaaa-bbbb-cccc-dddd" Cases.keyed) in
  get_activation_date string (fun text => Some text) out =
    (Ret (Some Samples.clock), out, []).
Proof.
  apply (proj1 (proj2 (proj2
           (X11_activation_date_after_operations PyStr.ascii_upper
              string (fun text => Some text)
              Samples.clock SaveOk "cs_test_123" "PROMO" "bd-aaaa-bbbb-cccc-dddd"
              None None Cases.keyed)))).
  vm_compute. reflexivity.
Defined.

Lemma X13_witness :
  license_file (st (revoke_license OpenFails Cases.licensed)) =
  license_file Cases.licensed.
Proof.
  apply (proj2 (proj2 (proj2 (proj1 (proj2
           (X13_which_files_are_written PyStr.ascii_upper OpenFails Samples.clock
              "cs_test_123" "PROMO" "BD-0000" None None Cases.licensed)))))).
  right. reflexivity.
Defined.

Lemma X15_witness :
  _calculate_checksum Samples.paid_document = _calculate_checksum Cases.paid_reordered /\
  res (_load_data (Samples.on_disk Cases.paid_reordered)) = Ret Cases.paid_reordered.
Proof.
  destruct (X15_field_order_is_irrelevant Samples.paid_document Cases.paid_reordered)
    as (Hsum & _ & Hload).
  - symmetry. apply (Permutation_cons_append
                       (Json.without "checksum" Samples.paid_document)
                       ("checksum", JStr "587e4687fad2eb75")).
  - cbn [map fst Samples.paid_document].
    repeat (constructor; [cbn [In]; intuition discriminate|]). constructor.
  - split; [exact Hsum|].
    rewrite (Hload (Samples.on_disk Cases.paid_reordered) eq_refl).
    vm_compute. reflexivity.
Defined.

(** A key typed in lower case with blanks around it hashes as the key
    itself does. *)
Lemma X16_witness :
  _hash_key PyStr.ascii_upper " bd-aaaa-bbbb-cccc-dddd " =
  _hash_key PyStr.ascii_upper "BD-AAAA-BBBB-CCCC-DDDD".
Proof.
  apply (proj1 (proj2 (proj2 (proj2
           (X16_hash_key_of_normalized_form PyStr.ascii_upper
              " bd-aaaa-bbbb-cccc-dddd " "BD-AAAA-BBBB-CCCC-DDDD"))))).
  vm_compute. reflexivity.
Defined.

(** On a first run the first call makes the manager; a Stripe
    activation through it is what the next call finds: the same
    reference, and behind it the licensed record. *)
Lemma X17_witness :
  get_license_manager Cases.first_run =
    (Ret 0%nat, Process [(_default_data, None)] (Some 0%nat) Missing None, []) /\
  exists p2,
    call 0 (activate_with_stripe Samples.clock SaveOk "cs_test_123" None None)
         (Process [(_default_data, None)] (Some 0%nat) Missing None)
      = Some (Ret true, p2, [Debug_saved; Info_activated_stripe "cs_test_123"]) /\
    get_license_manager p2 = (Ret 0%nat, p2, []) /\
    manager_at p2 0 = Some Samples.paid.
Proof.
  assert (Hwf : well_formed Cases.first_run) by (intros r Hr; discriminate Hr).
  assert (Hget : get_license_manager Cases.first_run =
                 (Ret 0%nat, Process [(_default_data, None)] (Some 0%nat) Missing None, []))
    by reflexivity.
  split; [exact Hget|].
  destruct (X17_global_instance Cases.first_run Hwf) as (_ & Hshared & _).
  destruct (Hshared 0%nat _ _ Hget) as (_ & _ & _ & _ & Hcall).
  destruct (Hcall bool
              (activate_with_stripe Samples.clock SaveOk "cs_test_123" None None)
              Samples.fresh eq_refl)
    as (p2 & Hc & _ & Hagain & Hat).
  exists p2. split; [exact Hc|]. split; [exact Hagain | exact Hat].
Defined.

Lemma X18_witness :
  _load_data (Samples.on_disk (Json.without "email" stamped_default)) =
    (Ret _default_data, Samples.on_disk (Json.without "email" stamped_default),
     [Warning_checksum_mismatch]) /\
  _load_data (Samples.on_disk (Json.set "seats" (JInt 5) stamped_default)) =
    (Ret _default_data, Samples.on_disk (Json.set "seats" (JInt 5) stamped_default),
     [Warning_checksum_mismatch]).
Proof.
  split.
  - apply (proj1 (X18_fields_removed_or_added_are_detected
                    Samples.fresh
                    (Samples.on_disk (Json.without "email" stamped_default))
                    stamped_default "email" eq_refl ltac:(discriminate))
                 JNull).
    + reflexivity.
    + reflexivity.
    + unfold no_collision. vm_compute. discriminate.
  - apply (proj2 (X18_fields_removed_or_added_are_detected
                    Samples.fresh
                    (Samples.on_disk (Json.set "seats" (JInt 5) stamped_default))
                    stamped_default "seats" eq_refl ltac:(discriminate))
                 (JInt 5)).
    + reflexivity.
    + reflexivity.
    + unfold no_collision. vm_compute. discriminate.
Defined.
